(** * ico2png: a shallow embedding of [ico2png.py] and its properties

    The Python function [ico2png(data)] takes the bytes of an ICO file,
    picks one directory entry, and either hands back an embedded PNG or
    rebuilds rows of RGBA channel values that it passes to the external
    PNG writer.  The embedding follows the source statement by statement:
    Python integers are [Z], the byte string is a [list byte], exceptions
    are values of [exn] threaded through a small error monad. *)

From Stdlib Require Import ZArith List Bool Lia.
From Stdlib.Strings Require Import Byte.
Import ListNotations.
Local Open Scope Z_scope.

(** ** Exceptions and the error monad *)

(** The source raises [TypeError] at four places; the place is kept so
    that a statement can say which [raise] fired.  The first is the
    failure the specification names FormatError, the other two the one it
    names UnsupportedFormatError. *)
Inductive raise_site : Type :=
| NotAnICO            (* lines 45 and 47: "data is not an ICO" *)
| DibNot40            (* line 81: the DIB is not 40 bytes *)
| PixelDepth.         (* line 172: unknown pixel depth *)

Inductive exn : Type :=
| TypeError (site : raise_site)
| StructError         (* struct.error, raised by unpack on a wrong length *)
| ValueError          (* max() of an empty sequence *)
| IndexError.         (* list index out of range *)

Inductive result (A : Type) : Type :=
| OK (a : A)
| Err (e : exn).
Arguments OK {A} a.
Arguments Err {A} e.

Definition bind {A B : Type} (m : result A) (k : A -> result B) : result B :=
  match m with
  | OK a => k a
  | Err e => Err e
  end.

Notation "x <- m ;; k" := (bind m (fun x => k))
  (at level 61, m at next level, right associativity).
Notation "' p <- m ;; k" := (bind m (fun x => match x with p => k end))
  (at level 61, p pattern, m at next level, right associativity).

(** A comprehension whose body may raise: elements are evaluated left to
    right and the first exception ends the evaluation. *)
Fixpoint mapM {A B : Type} (f : A -> result B) (l : list A) : result (list B) :=
  match l with
  | [] => OK []
  | a :: l' => b <- f a ;; bs <- mapM f l' ;; OK (b :: bs)
  end.

(** ** Python sequences *)

Definition bytes := list byte.

Definition byte_val (b : byte) : Z := Z.of_N (Byte.to_N b).

Definition len {A : Type} (l : list A) : Z := Z.of_nat (length l).

(** A slice bound as Python resolves it: negative bounds count from the
    end, and every bound is clipped to the sequence. *)
Definition clip (n i : Z) : Z :=
  if i <? 0 then Z.max 0 (i + n) else Z.min i n.

(** [s[a:b]] *)
Definition slice {A : Type} (s : list A) (a b : Z) : list A :=
  let lo := clip (len s) a in
  let hi := clip (len s) b in
  firstn (Z.to_nat (hi - lo)) (skipn (Z.to_nat lo) s).

(** [s[a:]] *)
Definition slice_from {A : Type} (s : list A) (a : Z) : list A :=
  skipn (Z.to_nat (clip (len s) a)) s.

(** [s == t] on byte strings *)
Fixpoint bytes_eqb (s t : bytes) : bool :=
  match s, t with
  | [], [] => true
  | a :: s', b :: t' => Byte.eqb a b && bytes_eqb s' t'
  | _, _ => false
  end.

(** [s[i]] *)
Definition index {A : Type} (s : list A) (i : Z) : result A :=
  let j := if i <? 0 then i + len s else i in
  if j <? 0 then Err IndexError
  else match nth_error s (Z.to_nat j) with
       | Some a => OK a
       | None => Err IndexError
       end.

(** [xrange(start, stop, step)] *)
Definition xrange3 (start stop step : Z) : list Z :=
  let count :=
    if 0 <? step then (stop - start + step - 1) / step
    else if step <? 0 then (start - stop - step - 1) / (- step)
    else 0 in
  map (fun i => start + Z.of_nat i * step) (seq 0 (Z.to_nat count)).

(** [xrange(n)] *)
Definition xrange (n : Z) : list Z := xrange3 0 n 1.

(** ** struct.unpack *)

(** An unsigned little-endian integer. *)
Fixpoint le_uint (bs : bytes) : Z :=
  match bs with
  | [] => 0
  | b :: bs' => byte_val b + 256 * le_uint bs'
  end.

(** A signed (two's complement) little-endian integer. *)
Definition le_int (bs : bytes) : Z :=
  let u := le_uint bs in
  let m := 2 ^ (8 * len bs) in
  if u <? m / 2 then u else u - m.

(** [unpack] raises [struct.error] unless the string has exactly the size
    of the format. *)
Definition sized (n : Z) (s : bytes) : result bytes :=
  if len s =? n then OK s else Err StructError.

(** [unpack('<3H', s)] *)
Definition unpack_3H (s : bytes) : result (Z * Z * Z) :=
  s <- sized 6 s ;;
  OK (le_uint (slice s 0 2), le_uint (slice s 2 4), le_uint (slice s 4 6)).

(** [unpack('<I', s)[0]] *)
Definition unpack_I (s : bytes) : result Z :=
  s <- sized 4 s ;; OK (le_uint s).

(** [unpack('BBBB', s)] *)
Definition unpack_BBBB (s : bytes) : result (Z * Z * Z * Z) :=
  match s with
  | [b0; b1; b2; b3] => OK (byte_val b0, byte_val b1, byte_val b2, byte_val b3)
  | _ => Err StructError
  end.

(** [unpack('BBB', s)] *)
Definition unpack_BBB (s : bytes) : result (Z * Z * Z) :=
  match s with
  | [b0; b1; b2] => OK (byte_val b0, byte_val b1, byte_val b2)
  | _ => Err StructError
  end.

(** The list built from [unpack('<4B2H2I', s)]: four bytes, two uint16
    and two uint32.  Field names follow the ICONDIRENTRY layout; the
    source reads them by position, given on the right. *)
Record directory : Type := mkDirectory {
  d_width : Z;        (* directory[0] *)
  d_height : Z;       (* directory[1] *)
  d_colors : Z;       (* directory[2] *)
  d_reserved : Z;     (* directory[3] *)
  d_planes : Z;       (* directory[4] *)
  d_bitcount : Z;     (* directory[5] *)
  d_bytes : Z;        (* directory[6] *)
  d_offset : Z        (* directory[7] *)
}.

Definition unpack_4B2H2I (s : bytes) : result directory :=
  s <- sized 16 s ;;
  OK (mkDirectory
        (le_uint (slice s 0 1)) (le_uint (slice s 1 2))
        (le_uint (slice s 2 3)) (le_uint (slice s 3 4))
        (le_uint (slice s 4 6)) (le_uint (slice s 6 8))
        (le_uint (slice s 8 12)) (le_uint (slice s 12 16))).

(** The tuple from [unpack('<L2l2H2L2l2L', s)]: the BITMAPINFOHEADER. *)
Record dib_header : Type := mkDib {
  dib_size_field : Z;     (* dib[0],  L *)
  dib_width : Z;          (* dib[1],  l *)
  dib_height : Z;         (* dib[2],  l *)
  dib_planes : Z;         (* dib[3],  H *)
  dib_bpp : Z;            (* dib[4],  H *)
  dib_compression : Z;    (* dib[5],  L *)
  dib_image_size : Z;     (* dib[6],  L *)
  dib_xppm : Z;           (* dib[7],  l *)
  dib_yppm : Z;           (* dib[8],  l *)
  dib_colors_used : Z;    (* dib[9],  L *)
  dib_colors_important : Z (* dib[10], L *)
}.

Definition unpack_dib (s : bytes) : result dib_header :=
  s <- sized 40 s ;;
  OK (mkDib
        (le_uint (slice s 0 4)) (le_int (slice s 4 8)) (le_int (slice s 8 12))
        (le_uint (slice s 12 14)) (le_uint (slice s 14 16))
        (le_uint (slice s 16 20)) (le_uint (slice s 20 24))
        (le_int (slice s 24 28)) (le_int (slice s 28 32))
        (le_uint (slice s 32 36)) (le_uint (slice s 36 40))).

(** ** Helper functions of the source (lines 182-185) *)

(** [_bitlist(byte)]: the eight bits of a byte, most significant first. *)
Definition _bitlist (byte : Z) : list Z :=
  map (fun x => Z.land (byte / 2 ^ x) 1) (xrange3 7 (-1) (-1)).

(** [_bitlistvalue(l)]: [reduce(lambda x, y: 2 * x + y, l, 0)]. *)
Definition _bitlistvalue (l : list Z) : Z :=
  fold_left (fun x y => 2 * x + y) l 0.

(** ** Header and directory (lines 41-62) *)

(** Lines 42-47: the bare [except] turns any failure of the unpack into
    [TypeError]. *)
Definition read_header (data : bytes) : result Z :=
  match unpack_3H (slice data 0 6) with
  | Err _ => Err (TypeError NotAnICO)
  | OK (h0, h1, h2) =>
      if negb ((h0 =? 0) && (h1 =? 1)) then Err (TypeError NotAnICO)
      else OK h2
  end.

(** Lines 56-58: a zero in one of the first three fields becomes 256. *)
Definition zero_is_256 (v : Z) : Z := if v =? 0 then 256 else v.

Definition normalize (d : directory) : directory :=
  mkDirectory (zero_is_256 (d_width d)) (zero_is_256 (d_height d))
              (zero_is_256 (d_colors d)) (d_reserved d) (d_planes d)
              (d_bitcount d) (d_bytes d) (d_offset d).

(** Line 55 and the loop around it, for entry [i]. *)
Definition read_directory (data : bytes) (i : Z) : result directory :=
  d <- unpack_4B2H2I (slice data (6 + 16 * i) (6 + 16 * i + 16)) ;;
  OK (normalize d).

(** Lines 53-59. *)
Definition read_directories (data : bytes) (image_count : Z)
  : result (list directory) :=
  mapM (read_directory data) (xrange image_count).

(** The key of line 62, [x[0:3]], and Python's ordering on such lists. *)
Definition key (d : directory) : Z * Z * Z :=
  (d_width d, d_height d, d_colors d).

Definition key_ltb (a b : Z * Z * Z) : bool :=
  let '(a0, a1, a2) := a in
  let '(b0, b1, b2) := b in
  (a0 <? b0) || ((a0 =? b0) && ((a1 <? b1) || ((a1 =? b1) && (a2 <? b2)))).

(** [max(seq, key=...)]: the first element whose key no later element
    exceeds; an empty sequence raises [ValueError]. *)
Fixpoint max_from (best : directory) (rest : list directory) : directory :=
  match rest with
  | [] => best
  | d :: rest' =>
      if key_ltb (key best) (key d) then max_from d rest'
      else max_from best rest'
  end.

Definition py_max (l : list directory) : result directory :=
  match l with
  | [] => Err ValueError
  | d :: rest => OK (max_from d rest)
  end.

(** Lines 41-62: the directory entry the rest of the function works on. *)
Definition select (data : bytes) : result directory :=
  image_count <- read_header data ;;
  directories <- read_directories data image_count ;;
  py_max directories.

(** ** The selected image (lines 65-177) *)

(** What the function returns: the embedded PNG bytes of line 77, or the
    bytes the external PNG writer produces for the width, height and rows
    handed to it on lines 174-177 (one list of [4 * width] channel values
    per row). *)
Inductive output : Type :=
| Verbatim (png : bytes)
| Written (width height : Z) (pixels : list (list Z)).

(** The string literal of line 75: ["\211PNG\r\n\032\n"]. *)
Definition png_signature : bytes :=
  [x89; x50; x4e; x47; x0d; x0a; x1a; x0a].

(** Lines 79-83: the size check and the header fields. *)
Definition read_dib (data : bytes) (offset : Z) : result (Z * dib_header) :=
  dib_size <- unpack_I (slice data offset (offset + 4)) ;;
  if negb (dib_size =? 40) then Err (TypeError DibNot40)
  else
    dib <- unpack_dib (slice data offset (offset + dib_size)) ;;
    OK (dib_size, dib).

(** Lines 119-130. *)
Definition get_pixel (width height bits_per_pixel and_row_size : Z)
    (palette : list (Z * Z * Z)) (xor_data_bits and_data_bits : list Z)
    (x y : Z) : result (list Z) :=
  bit <- index and_data_bits ((height - y - 1) * and_row_size * 8 + x) ;;
  if bit =? 1 then OK [0; 0; 0; 0]
  else
    '(r, g, b) <- index palette
        (_bitlistvalue
           (slice xor_data_bits
              (bits_per_pixel * ((height - y - 1) * width + x))
              (bits_per_pixel * ((height - y - 1) * width + x) + bits_per_pixel))) ;;
    OK [r; g; b; 255].

(** Lines 90-96: the palette, reordered from (blue, green, red, reserved). *)
Definition read_palette (data : bytes) (offset dib_size color_count : Z)
  : result (list (Z * Z * Z)) :=
  raw_colors <- mapM (fun i =>
      unpack_BBBB (slice data (offset + dib_size + 4 * i)
                              (offset + dib_size + 4 * i + 4)))
    (xrange3 0 color_count 1) ;;
  OK (map (fun color => let '(c0, c1, c2, _) := color in (c2, c1, c0)) raw_colors).

(** Lines 99-106 and 109-116: the bits of a run of bytes. *)
Definition bits_of (s : bytes) : list Z :=
  flat_map (fun byte => _bitlist (byte_val byte)) s.

Definition xor_bits (data : bytes) (offset dib_size color_count bmp_data_bytes : Z)
  : list Z :=
  bits_of (slice data (offset + dib_size + color_count * 4)
                      (offset + dib_size + color_count * 4 + bmp_data_bytes)).

Definition and_bits (data : bytes)
    (offset dib_size color_count bmp_data_bytes and_row_size height : Z) : list Z :=
  bits_of (slice data
             (offset + dib_size + color_count * 4 + bmp_data_bytes)
             (offset + dib_size + color_count * 4 + bmp_data_bytes
              + and_row_size * height)).

(** Lines 88-138: the branch for [bits_per_pixel <= 8]. *)
Definition palette_pixels (data : bytes)
    (width height offset dib_size bits_per_pixel bmp_data_bytes : Z)
  : result (list (list Z)) :=
  let color_count := 2 ^ bits_per_pixel in
  palette <- read_palette data offset dib_size color_count ;;
  let xor_data_bits := xor_bits data offset dib_size color_count bmp_data_bytes in
  let and_row_size := Z.shiftl (Z.shiftr (width + 31) 5) 2 in
  let and_data_bits :=
    and_bits data offset dib_size color_count bmp_data_bytes and_row_size height in
  mapM (fun y =>
      quads <- mapM (fun x =>
                       get_pixel width height bits_per_pixel and_row_size
                                 palette xor_data_bits and_data_bits x y)
                    (xrange width) ;;
      OK (concat quads))
    (xrange height).

(** Line 151: [(px[2], px[1], px[0], px[3])]. *)
Definition rgba_of_bgra (px : Z * Z * Z * Z) : list Z :=
  let '(p0, p1, p2, p3) := px in [p2; p1; p0; p3].

(** Lines 139-154: the branch for [bits_per_pixel == 32]. *)
Definition rgb32_pixels (data : bytes) (width height offset dib_size : Z)
  : result (list (list Z)) :=
  raw_pixels <- mapM (fun y =>
      mapM (fun x =>
          unpack_BBBB (slice data (offset + dib_size + 4 * (y * width + x))
                                  (offset + dib_size + 4 * (y * width + x) + 4)))
        (xrange width))
    (xrange3 (height - 1) (-1) (-1)) ;;
  OK (map (fun row => flat_map rgba_of_bgra row) raw_pixels).

(** Lines 155-170: the branch for [bits_per_pixel == 24]. *)
Definition rgb24_pixels (data : bytes) (width height offset dib_size : Z)
  : result (list (list Z)) :=
  raw_pixels <- mapM (fun y =>
      mapM (fun x =>
          unpack_BBB (slice data (offset + dib_size + 3 * (y * width + x))
                                 (offset + dib_size + 3 * (y * width + x) + 3)))
        (xrange width))
    (xrange3 (height - 1) (-1) (-1)) ;;
  OK (map (fun row =>
             flat_map (fun px => let '(p0, p1, p2) := px in [p2; p1; p0; 255]) row)
          raw_pixels).

(** Lines 84-172: from the header fields to the rows of channel values. *)
Definition dib_pixels (data : bytes) (width height offset dib_size : Z)
    (dib : dib_header) : result (list (list Z)) :=
  let bits_per_pixel := dib_bpp dib in
  let bmp_data_bytes := dib_image_size dib in
  let bmp_data_bytes :=
    if bmp_data_bytes =? 0 then width * height * bits_per_pixel / 8
    else bmp_data_bytes in
  if bits_per_pixel <=? 8 then
    palette_pixels data width height offset dib_size bits_per_pixel bmp_data_bytes
  else if bits_per_pixel =? 32 then
    rgb32_pixels data width height offset dib_size
  else if bits_per_pixel =? 24 then
    rgb24_pixels data width height offset dib_size
  else Err (TypeError PixelDepth).

(** Lines 65-177, for the selected [directory]. *)
Definition convert_entry (data : bytes) (directory : directory) : result output :=
  let width := d_width directory in
  let height := d_height directory in
  let offset := d_offset directory in
  if bytes_eqb (slice data offset (offset + 16)) png_signature then
    OK (Verbatim (slice_from data offset))
  else
    '(dib_size, dib) <- read_dib data offset ;;
    pixels <- dib_pixels data width height offset dib_size dib ;;
    OK (Written width height pixels).

(** The function of the source. *)
Definition ico2png (data : bytes) : result output :=
  directory <- select data ;;
  convert_entry data directory.

(** ** Notions used in the statements *)

(** The order of the keys: first components decide, then second, then
    third. *)
Definition key_le (a b : Z * Z * Z) : Prop :=
  let '(a0, a1, a2) := a in
  let '(b0, b1, b2) := b in
  a0 < b0 \/ (a0 = b0 /\ (a1 < b1 \/ (a1 = b1 /\ a2 <= b2))).

(** The four channel values of pixel [(x, y)] in the rows given to the
    PNG writer, [y] counted from the top. *)
Definition pixel_at (pixels : list (list Z)) (x y : Z) : option (list Z) :=
  match nth_error pixels (Z.to_nat y) with
  | Some row => Some (slice row (4 * x) (4 * x + 4))
  | None => None
  end.

(** The values a bit list may hold. *)
Definition is_bit (b : Z) : Prop := b = 0 \/ b = 1.

(** ** Sample inputs *)

(** The scenario of two entries, 16x16 with 16 colours and 32x32 with 256
    colours (colour-count byte 0). *)
Definition ico_two_entries : bytes :=
  [x00; x00; x01; x00; x02; x00;
   x10; x10; x10; x00; x01; x00; x04; x00;
   x28; x01; x00; x00; x26; x00; x00; x00;
   x20; x20; x00; x00; x01; x00; x08; x00;
   xa8; x08; x00; x00; x4e; x01; x00; x00].

(** A complete 1x1 PNG file of 70 bytes. *)
Definition png_1x1 : bytes :=
  [x89; x50; x4e; x47; x0d; x0a; x1a; x0a; x00; x00; x00; x0d; x49; x48;
   x44; x52; x00; x00; x00; x01; x00; x00; x00; x01; x08; x06; x00; x00;
   x00; x1f; x15; xc4; x89; x00; x00; x00; x0d; x49; x44; x41; x54; x78;
   xda; x63; x64; x60; xf8; x5f; x0f; x00; x02; x87; x01; x80; xeb; x47;
   xba; x92; x00; x00; x00; x00; x49; x45; x4e; x44; xae; x42; x60; x82].

(** A one-image ICO that holds this PNG file at offset 22. *)
Definition ico_with_png : bytes :=
  [x00; x00; x01; x00; x01; x00;
   x01; x01; x00; x00; x01; x00; x20; x00;
   x46; x00; x00; x00; x16; x00; x00; x00] ++ png_1x1.

(** An image that starts with a 12-byte BITMAPCOREHEADER. *)
Definition ico_core_header : bytes :=
  [x00; x00; x01; x00; x01; x00;
   x01; x01; x02; x00; x01; x00; x01; x00;
   x1c; x00; x00; x00; x16; x00; x00; x00;
   x0c; x00; x00; x00; x01; x00; x01; x00; x01; x00; x01; x00;
   x00; x00; x00; xff; xff; xff;
   x00; x00; x00; x00; x00; x00; x00; x00].

(** A 1x1 image of depth 16. *)
Definition ico_16bpp : bytes :=
  [x00; x00; x01; x00; x01; x00;
   x01; x01; x00; x00; x01; x00; x10; x00;
   x2a; x00; x00; x00; x16; x00; x00; x00;
   x28; x00; x00; x00; x01; x00; x00; x00; x02; x00; x00; x00;
   x01; x00; x10; x00; x00; x00; x00; x00; x00; x00; x00; x00;
   x00; x00; x00; x00; x00; x00; x00; x00; x00; x00; x00; x00;
   x00; x00; x00; x00;
   xff; x7f].

(** A 1x1 image of depth 3: eight palette colours, four bytes of colour
    indices (the first pixel has index 5) and four bytes of mask. *)
Definition ico_3bpp : bytes :=
  [x00; x00; x01; x00; x01; x00;
   x01; x01; x08; x00; x01; x00; x03; x00;
   x50; x00; x00; x00; x16; x00; x00; x00;
   x28; x00; x00; x00; x01; x00; x00; x00; x02; x00; x00; x00;
   x01; x00; x03; x00; x00; x00; x00; x00; x04; x00; x00; x00;
   x00; x00; x00; x00; x00; x00; x00; x00; x00; x00; x00; x00;
   x00; x00; x00; x00;
   x00; x00; x00; x00;  x00; x00; xff; x00;  x00; xff; x00; x00;
   xff; x00; x00; x00;  xff; xff; x00; x00;  x30; x20; x10; x00;
   x00; xff; xff; x00;  xff; xff; xff; x00;
   xa0; x00; x00; x00;
   x00; x00; x00; x00].

(** A 1x1 image of depth 32 whose only pixel is stored as the bytes
    1, 2, 3, 4. *)
Definition ico_32bpp : bytes :=
  [x00; x00; x01; x00; x01; x00;
   x01; x01; x00; x00; x01; x00; x20; x00;
   x2c; x00; x00; x00; x16; x00; x00; x00;
   x28; x00; x00; x00; x01; x00; x00; x00; x02; x00; x00; x00;
   x01; x00; x20; x00; x00; x00; x00; x00; x00; x00; x00; x00;
   x00; x00; x00; x00; x00; x00; x00; x00; x00; x00; x00; x00;
   x00; x00; x00; x00;
   x01; x02; x03; x04].

(** A 2x2 image of depth 1 with the palette (red, green).  Colour indices
    are 1, 0 in the bottom row and 1, 1 in the top row; the mask marks the
    right pixel of the bottom row. *)
Definition ico_1bpp_2x2 : bytes :=
  [x00; x00; x01; x00; x01; x00;
   x02; x02; x02; x00; x01; x00; x01; x00;
   x40; x00; x00; x00; x16; x00; x00; x00;
   x28; x00; x00; x00; x02; x00; x00; x00; x04; x00; x00; x00;
   x01; x00; x01; x00; x00; x00; x00; x00; x08; x00; x00; x00;
   x00; x00; x00; x00; x00; x00; x00; x00; x00; x00; x00; x00;
   x00; x00; x00; x00;
   x00; x00; xff; x00;  x00; xff; x00; x00;
   xb0; x00; x00; x00;  x00; x00; x00; x00;
   x40; x00; x00; x00;  x00; x00; x00; x00].

(** A 1x2 image of depth 24: the stored (bottom) row holds the bytes 10 20
    30, the top row 40 50 60 (hexadecimal); eight mask bytes, all ones,
    follow. *)
Definition ico_24bpp : bytes :=
  [x00; x00; x01; x00; x01; x00;
   x01; x02; x00; x00; x01; x00; x18; x00;
   x36; x00; x00; x00; x16; x00; x00; x00;
   x28; x00; x00; x00; x01; x00; x00; x00; x04; x00; x00; x00;
   x01; x00; x18; x00; x00; x00; x00; x00; x00; x00; x00; x00;
   x00; x00; x00; x00; x00; x00; x00; x00; x00; x00; x00; x00;
   x00; x00; x00; x00;
   x10; x20; x30;  x40; x50; x60;
   xff; xff; xff; xff;  xff; xff; xff; xff].

(** The same file cut in the middle of its second pixel. *)
Definition ico_24bpp_cut : bytes := firstn 67 ico_24bpp.

(** The 24-bit file cut after the first eight bytes of its DIB header. *)
Definition ico_24bpp_header_cut : bytes := firstn 30 ico_24bpp.

(** The 2x2 palette file cut after the first of its two palette colours. *)
Definition ico_1bpp_2x2_palette_cut : bytes := firstn 66 ico_1bpp_2x2.

(** The 2x2 palette file cut after the first of its two mask rows. *)
Definition ico_1bpp_2x2_mask_cut : bytes := firstn 82 ico_1bpp_2x2.

(** A header and directory of three entries, 16x16 with 16 colours and
    twice 32x32 with 256 colours, at offsets 54, 350 and 2566. *)
Definition ico_three_entries : bytes :=
  [x00; x00; x01; x00; x03; x00;
   x10; x10; x10; x00; x01; x00; x04; x00;
   x28; x01; x00; x00; x36; x00; x00; x00;
   x20; x20; x00; x00; x01; x00; x08; x00;
   xa8; x08; x00; x00; x5e; x01; x00; x00;
   x20; x20; x00; x00; x01; x00; x08; x00;
   xa8; x08; x00; x00; x06; x0a; x00; x00].



(** * Properties *)

(** ** The error monad *)

Lemma bind_OK {A B : Type} (m : result A) (k : A -> result B) (b : B) :
  bind m k = OK b -> exists a, m = OK a /\ k a = OK b.
Proof.
  destruct m as [a|e]; simpl; intros H; [eauto | discriminate].
Qed.

Ltac bind_inv H :=
  let a := fresh "a" in
  let Ha := fresh "Ha" in
  apply bind_OK in H; destruct H as (a & Ha & H).

Lemma mapM_OK_nth {A B : Type} (f : A -> result B) (l : list A) (bs : list B) :
  mapM f l = OK bs ->
  length bs = length l /\
  forall i a, nth_error l i = Some a ->
              exists b, nth_error bs i = Some b /\ f a = OK b.
Proof.
  revert bs; induction l as [|a0 l IH]; simpl; intros bs H.
  - inversion H; subst; split; [reflexivity|].
    intros [|i] a Hi; discriminate.
  - bind_inv H. bind_inv H. inversion H; subst; clear H.
    destruct (IH _ Ha0) as [Hlen Hnth]. split; [simpl; congruence|].
    intros [|i] x Hi; simpl in *.
    + inversion Hi; subst; eauto.
    + auto.
Qed.

Lemma mapM_OK_In {A B : Type} (f : A -> result B) (l : list A) (bs : list B) b :
  mapM f l = OK bs -> In b bs -> exists a, In a l /\ f a = OK b.
Proof.
  revert bs; induction l as [|a0 l IH]; simpl; intros bs H Hin.
  - inversion H; subst; destruct Hin.
  - bind_inv H. bind_inv H. inversion H; subst; clear H.
    destruct Hin as [->|Hin]; [eauto|].
    destruct (IH _ Ha0 Hin) as (x & Hx & Hfx); eauto.
Qed.

Lemma mapM_all_OK {A B : Type} (f : A -> result B) (l : list A) :
  (forall a, In a l -> exists b, f a = OK b) -> exists bs, mapM f l = OK bs.
Proof.
  induction l as [|a0 l IH]; simpl; intros H; [eauto|].
  destruct (H a0 (or_introl eq_refl)) as [b ->].
  destruct IH as [bs ->]; [auto|]. simpl; eauto.
Qed.

Lemma mapM_Err {A B : Type} (f : A -> result B) (l : list A) (e : exn) :
  (forall a, In a l -> f a = Err e \/ exists b, f a = OK b) ->
  (exists a, In a l /\ f a = Err e) ->
  mapM f l = Err e.
Proof.
  induction l as [|a0 l IH]; simpl; intros Hall (a & Hin & Ha); [destruct Hin|].
  destruct (Hall a0 (or_introl eq_refl)) as [->|[b Hb]]; [reflexivity|].
  rewrite Hb; simpl. rewrite IH; [reflexivity|auto|].
  destruct Hin as [->|Hin]; [congruence|eauto].
Qed.

(** ** Slices, indices and ranges *)

Lemma len_nonneg {A : Type} (l : list A) : 0 <= len l.
Proof. unfold len; lia. Qed.

Lemma slice_nonneg {A : Type} (s : list A) (a b : Z) :
  0 <= a -> a <= b ->
  slice s a b = firstn (Z.to_nat (b - a)) (skipn (Z.to_nat a) s).
Proof.
  intros Ha Hab. unfold slice, clip, len.
  destruct (Z.ltb_spec a 0); [lia|]. destruct (Z.ltb_spec b 0); [lia|].
  destruct (Z_le_gt_dec a (Z.of_nat (length s))) as [Hle|Hgt].
  - rewrite (Z.min_l a) by lia.
    destruct (Z_le_gt_dec b (Z.of_nat (length s))).
    + now rewrite Z.min_l by lia.
    + rewrite Z.min_r by lia.
      rewrite !firstn_all2; rewrite ?length_skipn; auto; lia.
  - rewrite !Z.min_r by lia. rewrite Z.sub_diag; simpl.
    rewrite (skipn_all2 (n := Z.to_nat a)) by lia. now rewrite firstn_nil.
Qed.

Lemma slice_len {A : Type} (s : list A) (a b : Z) :
  0 <= a -> a <= b -> len (slice s a b) = Z.max 0 (Z.min b (len s) - a).
Proof.
  intros Ha Hab. rewrite slice_nonneg by assumption. unfold len.
  rewrite length_firstn, length_skipn. lia.
Qed.

Lemma slice_slice {A : Type} (s : list A) (m n a b : Z) :
  0 <= m -> 0 <= a -> a <= b -> m + b <= n ->
  slice (slice s m n) a b = slice s (m + a) (m + b).
Proof.
  intros Hm Ha Hab Hbn.
  rewrite (slice_nonneg s m n), (slice_nonneg _ a b), (slice_nonneg s) by lia.
  rewrite skipn_firstn_comm, firstn_firstn, skipn_skipn.
  f_equal; [lia|]. f_equal. lia.
Qed.

Lemma slice_prefix {A : Type} (s : list A) (n a b : Z) :
  0 <= a -> a <= b -> b <= n -> slice (slice s 0 n) a b = slice s a b.
Proof. intros. now rewrite slice_slice by lia. Qed.

Lemma slice_from_nonneg {A : Type} (s : list A) (a : Z) :
  0 <= a -> slice_from s a = skipn (Z.to_nat a) s.
Proof.
  intros Ha. unfold slice_from, clip, len.
  destruct (Z.ltb_spec a 0); [lia|].
  destruct (Z_le_gt_dec a (Z.of_nat (length s))).
  - now rewrite Z.min_l by lia.
  - rewrite Z.min_r by lia. rewrite !skipn_all2; auto; lia.
Qed.

Lemma index_nonneg {A : Type} (s : list A) (i : Z) :
  0 <= i -> index s i = match nth_error s (Z.to_nat i) with
                        | Some a => OK a
                        | None => Err IndexError
                        end.
Proof.
  intros Hi. unfold index. destruct (Z.ltb_spec i 0); [lia|].
  destruct (Z.ltb_spec i 0); [lia|reflexivity].
Qed.

Lemma xrange_seq (n : Z) : xrange n = map Z.of_nat (seq 0 (Z.to_nat n)).
Proof.
  unfold xrange, xrange3. simpl (0 <? 1).  cbv iota.
  replace (n - 0 + 1 - 1) with n by lia. rewrite Z.div_1_r.
  apply map_ext; intros; lia.
Qed.

Lemma xrange_down_seq (n : Z) :
  xrange3 (n - 1) (-1) (-1) = map (fun i => n - 1 - Z.of_nat i) (seq 0 (Z.to_nat n)).
Proof.
  unfold xrange3. simpl (0 <? -1). simpl (-1 <? 0). cbv iota.
  replace ((n - 1 - -1 - -1 - 1) / - -1) with n
    by (simpl (- -1); rewrite Z.div_1_r; lia).
  apply map_ext; intros; lia.
Qed.

Lemma xrange_length (n : Z) : length (xrange n) = Z.to_nat n.
Proof. now rewrite xrange_seq, length_map, length_seq. Qed.

Lemma xrange_nth (n : Z) (i : nat) :
  Z.of_nat i < n -> nth_error (xrange n) i = Some (Z.of_nat i).
Proof.
  intros Hi. rewrite xrange_seq, nth_error_map, nth_error_seq.
  destruct (Nat.ltb_spec i (Z.to_nat n)); [reflexivity|lia].
Qed.

Lemma xrange_In (n x : Z) : In x (xrange n) <-> 0 <= x < n.
Proof.
  rewrite xrange_seq, in_map_iff. split.
  - intros (i & <- & Hi). apply in_seq in Hi. lia.
  - intros Hx. exists (Z.to_nat x). rewrite in_seq. lia.
Qed.

Lemma xrange_down_nth (n : Z) (i : nat) :
  Z.of_nat i < n ->
  nth_error (xrange3 (n - 1) (-1) (-1)) i = Some (n - 1 - Z.of_nat i).
Proof.
  intros Hi. rewrite xrange_down_seq, nth_error_map, nth_error_seq.
  destruct (Nat.ltb_spec i (Z.to_nat n)); [reflexivity|lia].
Qed.

Lemma xrange_down_In (n y : Z) :
  In y (xrange3 (n - 1) (-1) (-1)) <-> 0 <= y < n.
Proof.
  rewrite xrange_down_seq, in_map_iff. split.
  - intros (i & <- & Hi). apply in_seq in Hi. lia.
  - intros Hy. exists (Z.to_nat (n - 1 - y)). rewrite in_seq. lia.
Qed.

Lemma xrange_down_length (n : Z) :
  length (xrange3 (n - 1) (-1) (-1)) = Z.to_nat n.
Proof. now rewrite xrange_down_seq, length_map, length_seq. Qed.

(** ** Bytes and unpacked fields *)

Lemma byte_val_range (b : byte) : 0 <= byte_val b <= 255.
Proof.
  unfold byte_val. pose proof (Byte.to_N_bounded b). lia.
Qed.

Lemma le_uint_range (bs : bytes) : 0 <= le_uint bs < 256 ^ len bs.
Proof.
  induction bs as [|b bs IH]; [unfold len; simpl; lia|].
  unfold len in *. change (le_uint (b :: bs)) with (byte_val b + 256 * le_uint bs).
  replace (Z.of_nat (length (b :: bs))) with (Z.succ (Z.of_nat (length bs)))
    by (simpl length; lia).
  rewrite Z.pow_succ_r by lia.
  pose proof (byte_val_range b). lia.
Qed.

Lemma bytes_eqb_eq (s t : bytes) : bytes_eqb s t = true <-> s = t.
Proof.
  revert t; induction s as [|a s IH]; intros [|b t]; simpl;
    try (split; [discriminate|congruence]); try tauto.
  rewrite andb_true_iff, IH. split.
  - intros [Hab ->]. apply Byte.byte_dec_bl in Hab. congruence.
  - intros H; inversion H; subst. split; [now apply Byte.byte_dec_lb|reflexivity].
Qed.

Lemma sized_OK (n : Z) (s t : bytes) : sized n s = OK t -> t = s /\ len s = n.
Proof.
  unfold sized. destruct (Z.eqb_spec (len s) n); [|discriminate].
  intros H; inversion H; subst; split; reflexivity.
Qed.

Lemma sized_len (s : bytes) : sized (len s) s = OK s.
Proof. unfold sized. now rewrite Z.eqb_refl. Qed.

Lemma sized_Err (n : Z) (s : bytes) : len s <> n -> sized n s = Err StructError.
Proof. unfold sized. destruct (Z.eqb_spec (len s) n); [contradiction|reflexivity]. Qed.

(** ** The header *)

Lemma read_header_OK (data : bytes) (image_count : Z) :
  read_header data = OK image_count ->
  6 <= len data /\ unpack_3H (slice data 0 6) = OK (0, 1, image_count).
Proof.
  unfold read_header.
  destruct (unpack_3H (slice data 0 6)) as [[[h0 h1] h2]|e] eqn:Hu; [|discriminate].
  destruct (Z.eqb_spec h0 0), (Z.eqb_spec h1 1); simpl; try discriminate.
  intros H; inversion H; subst. split; [|reflexivity].
  unfold unpack_3H in Hu. bind_inv Hu. apply sized_OK in Ha as [_ Hlen].
  rewrite slice_len in Hlen by lia. lia.
Qed.

Lemma read_header_short (data : bytes) :
  len data < 6 -> read_header data = Err (TypeError NotAnICO).
Proof.
  intros Hlen. unfold read_header, unpack_3H.
  rewrite sized_Err; [reflexivity|].
  rewrite slice_len by lia. pose proof (len_nonneg data). lia.
Qed.

Lemma read_header_fields (data : bytes) :
  6 <= len data ->
  unpack_3H (slice data 0 6) =
  OK (le_uint (slice data 0 2), le_uint (slice data 2 4), le_uint (slice data 4 6)).
Proof.
  intros Hlen. unfold unpack_3H.
  replace 6 with (len (slice data 0 6)) at 1 by (rewrite slice_len; lia).
  rewrite sized_len. simpl. now rewrite !slice_prefix by lia.
Qed.

(** C8: a buffer shorter than 6 bytes, or one whose first two
    little-endian 16-bit fields are not (0, 1), makes [ico2png] raise the
    [TypeError] of lines 45 and 47 ("data is not an ICO"); no output
    value is produced. *)
Theorem bad_header_raises_not_an_ico (data : bytes) :
  len data < 6 \/
  (le_uint (slice data 0 2), le_uint (slice data 2 4)) <> (0, 1) ->
  ico2png data = Err (TypeError NotAnICO).
Proof.
  intros H. unfold ico2png, select.
  destruct (Z_lt_ge_dec (len data) 6) as [Hshort|Hlong].
  - now rewrite read_header_short.
  - destruct H as [H|H]; [lia|].
    unfold read_header. rewrite read_header_fields by lia.
    destruct (Z.eqb_spec (le_uint (slice data 0 2)) 0) as [E0|]; [|reflexivity].
    destruct (Z.eqb_spec (le_uint (slice data 2 4)) 1) as [E1|]; [|reflexivity].
    exfalso; apply H; congruence.
Qed.

(** Two such inputs: three bytes, and the first bytes of a BMP file. *)
Lemma bad_header_raises_not_an_ico_witness :
  ico2png [x00; x00; x01] = Err (TypeError NotAnICO) /\
  ico2png [x42; x4d; x46; x00; x00; x00; x00; x00] = Err (TypeError NotAnICO).
Proof.
  split; apply bad_header_raises_not_an_ico.
  - left. vm_compute. reflexivity.
  - right. vm_compute. intros H; discriminate H.
Defined.

(** C10: a header that reads (0, 1, 0) leaves the directory list empty,
    and [max] of the empty list raises [ValueError], which is not the
    [TypeError] raised anywhere else in the function. *)
Theorem zero_images_raises_ValueError (data : bytes) :
  unpack_3H (slice data 0 6) = OK (0, 1, 0) ->
  ico2png data = Err ValueError /\
  forall site, ValueError <> TypeError site.
Proof.
  intros H. split; [|discriminate].
  unfold ico2png, select, read_header. rewrite H. reflexivity.
Qed.

Lemma zero_images_raises_ValueError_witness :
  ico2png [x00; x00; x01; x00; x00; x00; xff] = Err ValueError /\
  forall site, ValueError <> TypeError site.
Proof.
  apply zero_images_raises_ValueError. vm_compute. reflexivity.
Defined.

(** ** The directory *)

Lemma read_directory_cases (data : bytes) (i : Z) :
  read_directory data i = Err StructError \/ exists d, read_directory data i = OK d.
Proof.
  unfold read_directory, unpack_4B2H2I, sized.
  destruct (len _ =? 16); simpl; eauto.
Qed.

Lemma read_directory_short (data : bytes) (i : Z) :
  0 <= i -> len data < 6 + 16 * i + 16 ->
  read_directory data i = Err StructError.
Proof.
  intros Hi Hlen. unfold read_directory, unpack_4B2H2I.
  rewrite sized_Err; [reflexivity|].
  rewrite slice_len by lia. pose proof (len_nonneg data). lia.
Qed.

Lemma zero_is_256_range (v : Z) : 0 <= v < 256 -> 1 <= zero_is_256 v <= 256.
Proof. unfold zero_is_256. destruct (Z.eqb_spec v 0); lia. Qed.

Lemma le_uint_byte (s : bytes) (a : Z) :
  0 <= a -> 0 <= le_uint (slice s a (a + 1)) < 256.
Proof.
  intros Ha. pose proof (le_uint_range (slice s a (a + 1))) as H.
  assert (Hl : len (slice s a (a + 1)) = 0 \/ len (slice s a (a + 1)) = 1)
    by (rewrite slice_len by lia; lia).
  destruct Hl as [E|E]; rewrite E in H; simpl in H; lia.
Qed.

Lemma read_directory_fields (data : bytes) (i : Z) (d : directory) :
  read_directory data i = OK d ->
  1 <= d_width d <= 256 /\ 1 <= d_height d <= 256 /\ 0 <= d_offset d.
Proof.
  unfold read_directory. intros H. bind_inv H. inversion H; subst; clear H.
  unfold unpack_4B2H2I in Ha. bind_inv Ha. inversion Ha; subst; clear Ha.
  simpl. repeat split;
    try (apply zero_is_256_range; apply (le_uint_byte _ 0); lia);
    try (apply zero_is_256_range; apply (le_uint_byte _ 1); lia);
    apply le_uint_range.
Qed.

Lemma max_from_In (best : directory) (rest : list directory) :
  In (max_from best rest) (best :: rest).
Proof.
  revert best; induction rest as [|d rest IH]; intros best; [left; reflexivity|].
  change (max_from best (d :: rest))
    with (if key_ltb (key best) (key d) then max_from d rest else max_from best rest).
  destruct (key_ltb (key best) (key d)).
  - right. apply IH.
  - destruct (IH best) as [H|H]; [left; exact H|right; right; exact H].
Qed.

Lemma py_max_In (l : list directory) (d : directory) :
  py_max l = OK d -> In d l.
Proof.
  destruct l as [|d0 rest]; simpl; [discriminate|].
  intros H; inversion H; subst. apply max_from_In.
Qed.

Lemma select_OK (data : bytes) (d : directory) :
  select data = OK d ->
  exists image_count directories,
    read_header data = OK image_count /\
    read_directories data image_count = OK directories /\
    py_max directories = OK d.
Proof.
  unfold select. intros H. bind_inv H. bind_inv H. eauto.
Qed.

Lemma select_fields (data : bytes) (d : directory) :
  select data = OK d ->
  1 <= d_width d <= 256 /\ 1 <= d_height d <= 256 /\ 0 <= d_offset d.
Proof.
  intros H. apply select_OK in H as (n & dirs & _ & Hdirs & Hmax).
  apply py_max_In in Hmax.
  destruct (mapM_OK_In _ _ _ _ Hdirs Hmax) as (i & _ & Hi).
  eapply read_directory_fields; eauto.
Qed.

(** C9, as the code behaves: with a valid header but fewer than
    [6 + 16 * image_count] bytes, the unpack of line 55 raises
    [struct.error]; unlike the one of line 43 it is not inside a [try], so
    that exception, not [TypeError], leaves [ico2png]. *)
Theorem truncated_directory_raises_struct_error (data : bytes) (image_count : Z) :
  read_header data = OK image_count ->
  len data < 6 + 16 * image_count ->
  ico2png data = Err StructError /\
  forall site, ico2png data <> Err (TypeError site).
Proof.
  intros Hh Hlen.
  assert (E : ico2png data = Err StructError).
  { unfold ico2png, select. rewrite Hh. simpl.
    apply read_header_OK in Hh as [H6 _].
    unfold read_directories. rewrite mapM_Err with (e := StructError); [reflexivity| |].
    - intros i _. apply read_directory_cases.
    - exists (image_count - 1). split; [apply xrange_In; lia|].
      apply read_directory_short; lia. }
  split; [exact E|]. intros site. rewrite E. discriminate.
Qed.

(** A header announcing one image, and nothing after it. *)
Lemma truncated_directory_raises_struct_error_witness :
  ico2png [x00; x00; x01; x00; x01; x00] = Err StructError /\
  forall site,
    ico2png [x00; x00; x01; x00; x01; x00] <> Err (TypeError site).
Proof.
  apply (truncated_directory_raises_struct_error _ 1).
  - vm_compute. reflexivity.
  - vm_compute. reflexivity.
Defined.

(** The same shortage one step earlier, in the 6-byte header, is caught
    by the [try] of line 42 and reported as [TypeError]. *)
Lemma truncated_header_raises_TypeError :
  ico2png [x00; x00; x01; x00; x01] = Err (TypeError NotAnICO).
Proof. vm_compute. reflexivity. Qed.


(** ** Selection *)

Lemma key_ltb_spec (a b : Z * Z * Z) :
  key_ltb a b = false <-> key_le b a.
Proof.
  destruct a as [[a0 a1] a2], b as [[b0 b1] b2]. unfold key_ltb, key_le.
  destruct (Z.ltb_spec a0 b0), (Z.eqb_spec a0 b0), (Z.ltb_spec a1 b1),
    (Z.eqb_spec a1 b1), (Z.ltb_spec a2 b2); simpl;
    split; intros; try discriminate; try reflexivity; lia.
Qed.

Lemma key_le_refl (a : Z * Z * Z) : key_le a a.
Proof. destruct a as [[a0 a1] a2]; unfold key_le; lia. Qed.

Lemma key_le_trans (a b c : Z * Z * Z) : key_le a b -> key_le b c -> key_le a c.
Proof.
  destruct a as [[a0 a1] a2], b as [[b0 b1] b2], c as [[c0 c1] c2].
  unfold key_le; lia.
Qed.

Lemma key_le_total (a b : Z * Z * Z) : key_le a b \/ key_le b a.
Proof.
  destruct a as [[a0 a1] a2], b as [[b0 b1] b2]. unfold key_le; lia.
Qed.

Lemma max_from_upper (best : directory) (rest : list directory) :
  forall d, In d (best :: rest) -> key_le (key d) (key (max_from best rest)).
Proof.
  revert best; induction rest as [|d0 rest IH]; intros best d Hin.
  - destruct Hin as [->|[]]. apply key_le_refl.
  - change (max_from best (d0 :: rest))
      with (if key_ltb (key best) (key d0) then max_from d0 rest
            else max_from best rest).
    destruct (key_ltb (key best) (key d0)) eqn:E.
    + destruct Hin as [->|Hin]; [|now apply IH].
      apply key_le_trans with (key d0); [|apply IH; left; reflexivity].
      destruct (key_le_total (key d) (key d0)) as [H|H]; [exact H|].
      apply key_ltb_spec in H. congruence.
    + apply key_ltb_spec in E.
      destruct Hin as [->|[->|Hin]].
      * apply IH; left; reflexivity.
      * apply key_le_trans with (key best); [exact E|apply IH; left; reflexivity].
      * apply IH; right; exact Hin.
Qed.

(** C6: when the directory has at least one entry, the entry [ico2png]
    goes on to decode is one of the parsed entries and no parsed entry has
    a larger (width, height, colour count) in lexicographic order. *)
Theorem selected_entry_is_maximal (data : bytes) (image_count : Z)
    (directories : list directory) :
  read_header data = OK image_count ->
  read_directories data image_count = OK directories ->
  directories <> [] ->
  exists d,
    select data = OK d /\
    In d directories /\
    (forall d', In d' directories -> key_le (key d') (key d)) /\
    ico2png data = convert_entry data d.
Proof.
  intros Hh Hd Hne. destruct directories as [|d0 rest]; [contradiction|].
  exists (max_from d0 rest).
  assert (Hs : select data = OK (max_from d0 rest))
    by (unfold select; rewrite Hh; simpl; rewrite Hd; reflexivity).
  repeat split.
  - exact Hs.
  - apply max_from_In.
  - apply max_from_upper.
  - unfold ico2png. rewrite Hs. reflexivity.
Qed.

Lemma selected_entry_is_maximal_witness :
  exists d,
    select ico_two_entries = OK d /\
    In d [mkDirectory 16 16 16 0 1 4 296 38; mkDirectory 32 32 256 0 1 8 2216 334] /\
    (forall d',
        In d' [mkDirectory 16 16 16 0 1 4 296 38;
               mkDirectory 32 32 256 0 1 8 2216 334] ->
        key_le (key d') (key d)) /\
    ico2png ico_two_entries = convert_entry ico_two_entries d.
Proof.
  apply (selected_entry_is_maximal ico_two_entries 2).
  - vm_compute. reflexivity.
  - vm_compute. reflexivity.
  - discriminate.
Defined.

Example two_entries_selects_the_larger :
  select ico_two_entries = OK (mkDirectory 32 32 256 0 1 8 2216 334).
Proof. vm_compute. reflexivity. Qed.

(** ** The test for an embedded PNG (line 75) *)

(** The comparison of line 75 takes sixteen bytes of [data] and compares
    them with the eight of the signature: it holds only when the
    signature is all that is left of the buffer. *)
Lemma png_test_true (data : bytes) (offset : Z) :
  0 <= offset ->
  bytes_eqb (slice data offset (offset + 16)) png_signature = true ->
  len data = offset + 8 /\
  slice data offset (offset + 8) = png_signature /\
  slice data offset (offset + 4) = slice png_signature 0 4.
Proof.
  intros Hoff H. apply bytes_eqb_eq in H.
  assert (Hlen : len (slice data offset (offset + 16)) = 8) by now rewrite H.
  rewrite slice_len in Hlen by lia.
  split; [lia|]. split.
  - replace (slice data offset (offset + 8))
      with (slice (slice data offset (offset + 16)) 0 8)
      by (rewrite slice_slice by lia; f_equal; lia).
    rewrite H. reflexivity.
  - replace (slice data offset (offset + 4))
      with (slice (slice data offset (offset + 16)) 0 4)
      by (rewrite slice_slice by lia; f_equal; lia).
    now rewrite H.
Qed.

Lemma png_test_false_of_other_bytes (data : bytes) (offset : Z) :
  0 <= offset ->
  slice data offset (offset + 8) <> png_signature ->
  bytes_eqb (slice data offset (offset + 16)) png_signature = false.
Proof.
  intros Hoff Hne.
  destruct (bytes_eqb _ png_signature) eqn:E; [|reflexivity].
  apply png_test_true in E; [|exact Hoff]. tauto.
Qed.

Lemma png_test_false_of_longer (data : bytes) (offset : Z) :
  0 <= offset -> offset + 8 < len data ->
  bytes_eqb (slice data offset (offset + 16)) png_signature = false.
Proof.
  intros Hoff Hlen.
  destruct (bytes_eqb _ png_signature) eqn:E; [|reflexivity].
  apply png_test_true in E; [|exact Hoff]. lia.
Qed.

Lemma png_test_false_of_dib_size (data : bytes) (offset : Z) :
  0 <= offset ->
  unpack_I (slice data offset (offset + 4)) = OK 40 ->
  bytes_eqb (slice data offset (offset + 16)) png_signature = false.
Proof.
  intros Hoff Hu.
  destruct (bytes_eqb _ png_signature) eqn:E; [|reflexivity].
  apply png_test_true in E as (_ & _ & E4); [|exact Hoff].
  rewrite E4 in Hu. vm_compute in Hu. discriminate.
Qed.

(** The one case in which line 77 is reached. *)
Lemma bare_signature_is_returned (data : bytes) (d : directory) :
  select data = OK d ->
  slice_from data (d_offset d) = png_signature ->
  ico2png data = OK (Verbatim png_signature).
Proof.
  intros Hs Hsig. unfold ico2png. rewrite Hs. simpl. unfold convert_entry.
  destruct (select_fields _ _ Hs) as (_ & _ & Hoff).
  assert (E : slice data (d_offset d) (d_offset d + 16) = png_signature).
  { rewrite slice_nonneg by lia. rewrite <- slice_from_nonneg by lia.
    rewrite Hsig. replace (d_offset d + 16 - d_offset d) with 16 by lia.
    reflexivity. }
  rewrite E. simpl. now rewrite Hsig.
Qed.

(** ** The DIB header *)

Lemma read_dib_OK (data : bytes) (offset dib_size : Z) (dib : dib_header) :
  read_dib data offset = OK (dib_size, dib) ->
  dib_size = 40 /\
  unpack_I (slice data offset (offset + 4)) = OK 40 /\
  unpack_dib (slice data offset (offset + 40)) = OK dib.
Proof.
  unfold read_dib. intros H. bind_inv H.
  destruct (Z.eqb_spec a 40) as [->|]; simpl in H; [|discriminate].
  bind_inv H. inversion H; subst. auto.
Qed.

Lemma convert_entry_dib (data : bytes) (d : directory) (dib_size : Z)
    (dib : dib_header) :
  0 <= d_offset d ->
  read_dib data (d_offset d) = OK (dib_size, dib) ->
  convert_entry data d =
  (pixels <- dib_pixels data (d_width d) (d_height d) (d_offset d) dib_size dib ;;
   OK (Written (d_width d) (d_height d) pixels)).
Proof.
  intros Hoff Hdib. unfold convert_entry.
  destruct (read_dib_OK _ _ _ _ Hdib) as (_ & Hsz & _).
  rewrite png_test_false_of_dib_size by assumption.
  rewrite Hdib. reflexivity.
Qed.

(** ** Embedded PNG images *)

(** C2, as the code behaves: when the eight bytes at the selected offset
    are the PNG signature and anything follows them, the sixteen-byte
    slice of line 75 differs from the eight-byte literal, the image is
    taken for a DIB, its first four bytes read as 1196314761, and line 81
    raises [TypeError]; the bytes from the offset on are not returned. *)
Theorem embedded_png_raises_TypeError (data : bytes) (d : directory) :
  select data = OK d ->
  slice data (d_offset d) (d_offset d + 8) = png_signature ->
  d_offset d + 8 < len data ->
  ico2png data = Err (TypeError DibNot40) /\
  ico2png data <> OK (Verbatim (slice_from data (d_offset d))).
Proof.
  intros Hs Hsig Hlen.
  assert (E : ico2png data = Err (TypeError DibNot40)).
  { unfold ico2png. rewrite Hs. simpl. unfold convert_entry.
    destruct (select_fields _ _ Hs) as (_ & _ & Hoff).
    rewrite png_test_false_of_longer by assumption.
    unfold read_dib.
    replace (slice data (d_offset d) (d_offset d + 4))
      with (slice (slice data (d_offset d) (d_offset d + 8)) 0 4)
      by (rewrite slice_slice by lia; f_equal; lia).
    rewrite Hsig. reflexivity. }
  split; [exact E|]. rewrite E. discriminate.
Qed.

Lemma embedded_png_raises_TypeError_witness :
  ico2png ico_with_png = Err (TypeError DibNot40) /\
  ico2png ico_with_png <> OK (Verbatim (slice_from ico_with_png 22)).
Proof.
  apply (embedded_png_raises_TypeError ico_with_png
           (mkDirectory 1 1 256 0 1 32 70 22)).
  - vm_compute. reflexivity.
  - vm_compute. reflexivity.
  - vm_compute. reflexivity.
Defined.

(** ** Unsupported images *)

(** C7: when the eight bytes at the selected offset are not the PNG
    signature and the four bytes there read as a number other than 40,
    [ico2png] raises the [TypeError] of line 81.  The exception comes out
    of the size check itself ([read_dib]), the step before the remaining
    header fields are unpacked and before any pixel is decoded. *)
Theorem dib_size_not_40_raises (data : bytes) (d : directory) (dib_size : Z) :
  select data = OK d ->
  slice data (d_offset d) (d_offset d + 8) <> png_signature ->
  unpack_I (slice data (d_offset d) (d_offset d + 4)) = OK dib_size ->
  dib_size <> 40 ->
  read_dib data (d_offset d) = Err (TypeError DibNot40) /\
  ico2png data = Err (TypeError DibNot40).
Proof.
  intros Hs Hne Hu Hsz.
  assert (E : read_dib data (d_offset d) = Err (TypeError DibNot40)).
  { unfold read_dib. rewrite Hu. simpl.
    destruct (Z.eqb_spec dib_size 40); [contradiction|reflexivity]. }
  split; [exact E|].
  unfold ico2png. rewrite Hs. simpl. unfold convert_entry.
  destruct (select_fields _ _ Hs) as (_ & _ & Hoff).
  rewrite png_test_false_of_other_bytes by assumption.
  rewrite E. reflexivity.
Qed.

Lemma dib_size_not_40_raises_witness :
  read_dib ico_core_header 22 = Err (TypeError DibNot40) /\
  ico2png ico_core_header = Err (TypeError DibNot40).
Proof.
  apply (dib_size_not_40_raises ico_core_header
           (mkDirectory 1 1 2 0 1 1 28 22) 12).
  - vm_compute. reflexivity.
  - vm_compute. intros H; discriminate H.
  - vm_compute. reflexivity.
  - intros H; discriminate H.
Defined.

(** The depth 3 is outside {1, 2, 4, 8, 24, 32}, and the image is decoded
    through the palette instead of being refused. *)
Lemma depth_3_is_decoded :
  exists d dib,
    select ico_3bpp = OK d /\
    read_dib ico_3bpp (d_offset d) = OK (40, dib) /\
    dib_bpp dib = 3 /\
    ico2png ico_3bpp = OK (Written 1 1 [[16; 32; 48; 255]]) /\
    ico2png ico_3bpp <> Err (TypeError PixelDepth).
Proof.
  exists (mkDirectory 1 1 8 0 1 3 80 22), (mkDib 40 1 2 1 3 0 4 0 0 0 0).
  repeat split; try (vm_compute; reflexivity).
  vm_compute. intros H; discriminate H.
Qed.

(** ** Rows of pixels *)

Lemma mapM_bind_pure {A B C : Type} (f : A -> result B) (g : B -> C) (l : list A) :
  mapM (fun a => b <- f a ;; OK (g b)) l = (bs <- mapM f l ;; OK (map g bs)).
Proof.
  induction l as [|a l IH]; simpl; [reflexivity|].
  destruct (f a) as [b|e]; simpl; [|reflexivity].
  rewrite IH. destruct (mapM f l); reflexivity.
Qed.

(** The value of a comprehension over rows [ys] and columns [xrange w]:
    the grid of the values of its body. *)
Lemma mapM_grid_OK {A : Type} (f : Z -> Z -> result A) (ys : list Z) (w : Z)
    (rows : list (list A)) :
  mapM (fun y => mapM (fun x => f x y) (xrange w)) ys = OK rows ->
  length rows = length ys /\
  forall j y i,
    nth_error ys j = Some y -> Z.of_nat i < w ->
    exists row a,
      nth_error rows j = Some row /\ nth_error row i = Some a /\
      f (Z.of_nat i) y = OK a /\
      forall a', In a' row -> exists x, 0 <= x < w /\ f x y = OK a'.
Proof.
  intros Hrows.
  destruct (mapM_OK_nth _ _ _ Hrows) as [Hlen Hnth]. split; [exact Hlen|].
  intros j y i Hj Hi.
  destruct (Hnth j y Hj) as (row & Hrow & Hinner).
  destruct (mapM_OK_nth _ _ _ Hinner) as [_ Hcol].
  destruct (Hcol i (Z.of_nat i)) as (a & Ha & Hfa); [now apply xrange_nth|].
  exists row, a. repeat split; try assumption.
  intros a' Ha'. destruct (mapM_OK_In _ _ _ _ Hinner Ha') as (x & Hx & Hfx).
  apply xrange_In in Hx. eauto.
Qed.

(** Such a comprehension has a value when its body never raises inside
    the grid. *)
Lemma mapM_grid_total {A : Type} (f : Z -> Z -> result A) (ys : list Z) (w : Z) :
  (forall x y, In y ys -> 0 <= x < w -> exists a, f x y = OK a) ->
  exists rows, mapM (fun y => mapM (fun x => f x y) (xrange w)) ys = OK rows.
Proof.
  intros Hf. apply mapM_all_OK. intros y Hy.
  apply mapM_all_OK. intros x Hx. apply xrange_In in Hx. auto.
Qed.

Lemma concat_chunk {B : Type} (k : nat) (ls : list (list B)) (i : nat) (q : list B) :
  Forall (fun q => length q = k) ls ->
  nth_error ls i = Some q ->
  firstn k (skipn (k * i) (concat ls)) = q.
Proof.
  intros Hall. revert i. induction Hall as [|q0 ls Hq0 Hall IH]; intros i Hi.
  - destruct i; discriminate.
  - cbn [concat]. destruct i as [|i]; simpl in Hi.
    + inversion Hi; subst q0. rewrite Nat.mul_0_r, skipn_0.
      rewrite firstn_app, Hq0, Nat.sub_diag, firstn_0, app_nil_r.
      rewrite <- Hq0. apply firstn_all.
    + rewrite skipn_app, Hq0.
      replace (k * S i - k)%nat with (k * i)%nat by lia.
      rewrite skipn_all2 by lia. rewrite app_nil_l. now apply IH.
Qed.

Lemma slice_concat_chunk (ls : list (list Z)) (i : nat) (q : list Z) :
  Forall (fun q => length q = 4%nat) ls ->
  nth_error ls i = Some q ->
  slice (concat ls) (4 * Z.of_nat i) (4 * Z.of_nat i + 4) = q.
Proof.
  intros Hall Hi. rewrite slice_nonneg by lia.
  replace (Z.to_nat (4 * Z.of_nat i + 4 - 4 * Z.of_nat i)) with 4%nat by lia.
  replace (Z.to_nat (4 * Z.of_nat i)) with (4 * i)%nat by lia.
  now apply concat_chunk.
Qed.

(** ** Direct colour, 32 bits per pixel *)

Lemma slice_four (data : bytes) (p : Z) :
  0 <= p -> p + 4 <= len data ->
  exists b0 b1 b2 b3, slice data p (p + 4) = [b0; b1; b2; b3].
Proof.
  intros Hp Hlen.
  assert (H : len (slice data p (p + 4)) = 4) by (rewrite slice_len; lia).
  destruct (slice data p (p + 4)) as [|b0 [|b1 [|b2 [|b3 [|b4 s]]]]];
    unfold len in H; simpl in H; try lia.
  eauto.
Qed.

Lemma rgba_of_bgra_length (px : Z * Z * Z * Z) : length (rgba_of_bgra px) = 4%nat.
Proof. destruct px as [[[p0 p1] p2] p3]; reflexivity. Qed.

Lemma unpack_BBBB_slice (data : bytes) (p : Z) :
  0 <= p -> p + 4 <= len data ->
  exists b0 b1 b2 b3,
    slice data p (p + 4) = [b0; b1; b2; b3] /\
    unpack_BBBB (slice data p (p + 4)) =
    OK (byte_val b0, byte_val b1, byte_val b2, byte_val b3).
Proof.
  intros Hp Hlen. destruct (slice_four data p Hp Hlen) as (b0 & b1 & b2 & b3 & E).
  exists b0, b1, b2, b3. rewrite E. split; reflexivity.
Qed.

Lemma pixel_at_map_concat (quads : list (list (list Z))) (x y : Z)
    (row : list (list Z)) (q : list Z) :
  0 <= x -> 0 <= y ->
  nth_error quads (Z.to_nat y) = Some row ->
  Forall (fun q => length q = 4%nat) row ->
  nth_error row (Z.to_nat x) = Some q ->
  pixel_at (map (@concat Z) quads) x y = Some q.
Proof.
  intros Hx Hy Hrow Hall Hq. unfold pixel_at.
  rewrite nth_error_map, Hrow. simpl. f_equal.
  replace x with (Z.of_nat (Z.to_nat x)) at 1 2 by lia.
  now apply slice_concat_chunk.
Qed.

Lemma rgb32_pixels_spec (data : bytes) (width height offset : Z) :
  0 <= offset -> 0 <= width -> 0 <= height ->
  offset + 40 + 4 * (width * height) <= len data ->
  exists pixels,
    rgb32_pixels data width height offset 40 = OK pixels /\
    len pixels = height /\
    forall x y,
      0 <= x < width -> 0 <= y < height ->
      let p := offset + 40 + 4 * ((height - 1 - y) * width + x) in
      exists b0 b1 b2 b3,
        slice data p (p + 4) = [b0; b1; b2; b3] /\
        pixel_at pixels x y =
        Some [byte_val b2; byte_val b1; byte_val b0; byte_val b3].
Proof.
  intros Hoff Hw Hh Hlen. unfold rgb32_pixels.
  pose (f := fun x y =>
              unpack_BBBB (slice data (offset + 40 + 4 * (y * width + x))
                                      (offset + 40 + 4 * (y * width + x) + 4))).
  assert (Hin : forall x y, 0 <= x < width -> 0 <= y < height ->
                            0 <= offset + 40 + 4 * (y * width + x) /\
                            offset + 40 + 4 * (y * width + x) + 4 <= len data)
    by (intros; nia).
  destruct (mapM_grid_total f (xrange3 (height - 1) (-1) (-1)) width)
    as (rows & Hrows).
  { intros x y Hy Hx. apply xrange_down_In in Hy.
    destruct (Hin x y Hx Hy) as [H0 H4].
    destruct (unpack_BBBB_slice data _ H0 H4) as (b0 & b1 & b2 & b3 & _ & E).
    unfold f. eauto. }
  destruct (mapM_grid_OK _ _ _ _ Hrows) as (Hlenrows & Hcell).
  unfold f in Hrows; cbv beta in Hrows. rewrite Hrows. simpl bind.
  eexists; split; [reflexivity|]. split.
  { unfold len. rewrite length_map, Hlenrows, xrange_down_length. lia. }
  cbv zeta. intros x y Hx Hy.
  destruct (Hcell (Z.to_nat y) (height - 1 - y) (Z.to_nat x))
    as (row & a & Hrow & Ha & Hfa & _); [|lia|].
  { rewrite xrange_down_nth by lia. f_equal. lia. }
  rewrite Z2Nat.id in Hfa by lia.
  assert (Hy' : 0 <= height - 1 - y < height) by lia.
  destruct (Hin x _ Hx Hy') as [H0 H4].
  destruct (unpack_BBBB_slice data _ H0 H4) as (b0 & b1 & b2 & b3 & Es & Eu).
  exists b0, b1, b2, b3. split; [exact Es|].
  unfold f in Hfa. rewrite Eu in Hfa. inversion Hfa; subst a; clear Hfa.
  rewrite (map_ext _ (fun row => concat (map rgba_of_bgra row)))
    by (intros r; apply flat_map_concat_map).
  rewrite <- (map_map (map rgba_of_bgra) (@concat Z)).
  apply pixel_at_map_concat with (row := map rgba_of_bgra row); try lia.
  - now rewrite nth_error_map, Hrow.
  - apply Forall_forall. intros q Hq. apply in_map_iff in Hq as (px & <- & _).
    apply rgba_of_bgra_length.
  - now rewrite nth_error_map, Ha.
Qed.

(** C1, as the code behaves: for a 32-bit image whose pixel data lie in
    the buffer, every pixel handed to the PNG writer is (red, green, blue,
    alpha) taken from the third, second, first and fourth byte of the
    source pixel; rows come out top to bottom from rows stored bottom to
    top.  The alpha channel is the fourth source byte, not 255. *)
Theorem rgb32_alpha_is_fourth_byte (data : bytes) (d : directory)
    (dib_size : Z) (dib : dib_header) :
  select data = OK d ->
  read_dib data (d_offset d) = OK (dib_size, dib) ->
  dib_bpp dib = 32 ->
  d_offset d + 40 + 4 * (d_width d * d_height d) <= len data ->
  exists pixels,
    ico2png data = OK (Written (d_width d) (d_height d) pixels) /\
    len pixels = d_height d /\
    forall x y,
      0 <= x < d_width d -> 0 <= y < d_height d ->
      let p := d_offset d + 40 + 4 * ((d_height d - 1 - y) * d_width d + x) in
      exists b0 b1 b2 b3,
        slice data p (p + 4) = [b0; b1; b2; b3] /\
        pixel_at pixels x y =
        Some [byte_val b2; byte_val b1; byte_val b0; byte_val b3].
Proof.
  intros Hs Hdib Hbpp Hlen.
  destruct (select_fields _ _ Hs) as (Hw & Hh & Hoff).
  destruct (read_dib_OK _ _ _ _ Hdib) as (-> & _ & _).
  destruct (rgb32_pixels_spec data (d_width d) (d_height d) (d_offset d))
    as (pixels & Hpx & Hrest); try lia.
  exists pixels. split; [|exact Hrest].
  unfold ico2png. rewrite Hs. simpl bind.
  rewrite (convert_entry_dib _ _ _ _ Hoff Hdib).
  unfold dib_pixels. rewrite Hbpp. simpl. rewrite Hpx. reflexivity.
Qed.

Lemma rgb32_alpha_is_fourth_byte_witness :
  exists pixels,
    ico2png ico_32bpp = OK (Written 1 1 pixels) /\
    len pixels = 1 /\
    forall x y,
      0 <= x < 1 -> 0 <= y < 1 ->
      let p := 22 + 40 + 4 * ((1 - 1 - y) * 1 + x) in
      exists b0 b1 b2 b3,
        slice ico_32bpp p (p + 4) = [b0; b1; b2; b3] /\
        pixel_at pixels x y =
        Some [byte_val b2; byte_val b1; byte_val b0; byte_val b3].
Proof.
  apply (rgb32_alpha_is_fourth_byte ico_32bpp
           (mkDirectory 1 1 256 0 1 32 44 22) 40
           (mkDib 40 1 2 1 32 0 0 0 0 0 0)).
  - vm_compute. reflexivity.
  - vm_compute. reflexivity.
  - reflexivity.
  - vm_compute. intros H; discriminate H.
Defined.

(** The pixel stored as 1, 2, 3, 4 comes out as 3, 2, 1, 4: its alpha
    channel is 4, the fourth source byte, and not 255. *)
Lemma rgb32_alpha_not_forced :
  exists d dib,
    select ico_32bpp = OK d /\
    read_dib ico_32bpp (d_offset d) = OK (40, dib) /\
    dib_bpp dib = 32 /\
    ico2png ico_32bpp = OK (Written 1 1 [[3; 2; 1; 4]]) /\
    pixel_at [[3; 2; 1; 4]] 0 0 = Some [3; 2; 1; 4] /\
    ~ (forall r g b a, pixel_at [[3; 2; 1; 4]] 0 0 = Some [r; g; b; a] -> a = 255).
Proof.
  exists (mkDirectory 1 1 256 0 1 32 44 22), (mkDib 40 1 2 1 32 0 0 0 0 0 0).
  repeat split; try (vm_compute; reflexivity).
  intros H. specialize (H 3 2 1 4 eq_refl). discriminate H.
Qed.

(** ** Palette images *)

Lemma land_1_is_bit (v : Z) : is_bit (Z.land v 1).
Proof.
  assert (E : Z.land v 1 = v mod 2) by apply (Z.land_ones v 1 ltac:(lia)).
  unfold is_bit. rewrite E. pose proof (Z.mod_pos_bound v 2). lia.
Qed.

Lemma _bitlist_length (byte : Z) : length (_bitlist byte) = 8%nat.
Proof. unfold _bitlist. now rewrite length_map. Qed.

Lemma _bitlist_bits (byte : Z) : Forall is_bit (_bitlist byte).
Proof.
  unfold _bitlist. apply Forall_forall. intros b Hb.
  apply in_map_iff in Hb as (x & <- & _). apply land_1_is_bit.
Qed.

Lemma bits_of_len (s : bytes) : len (bits_of s) = 8 * len s.
Proof.
  unfold bits_of, len. induction s as [|b s IH]; [reflexivity|].
  cbn [flat_map]. rewrite length_app, _bitlist_length.
  cbn [length]. lia.
Qed.

Lemma bits_of_bits (s : bytes) : Forall is_bit (bits_of s).
Proof.
  unfold bits_of. apply Forall_flat_map. apply Forall_forall.
  intros b _. apply _bitlist_bits.
Qed.

Lemma fold_bits_range (l : list Z) (acc : Z) :
  Forall is_bit l -> 0 <= acc ->
  0 <= fold_left (fun x y => 2 * x + y) l acc < (acc + 1) * 2 ^ len l.
Proof.
  intros Hall. revert acc. induction Hall as [|b l Hb Hall IH]; intros acc Hacc.
  - unfold len; simpl. lia.
  - cbn [fold_left].
    assert (H0 : 0 <= 2 * acc + b) by (destruct Hb; lia).
    specialize (IH _ H0).
    replace (len (b :: l)) with (Z.succ (len l)) by (unfold len; cbn [length]; lia).
    rewrite Z.pow_succ_r by apply len_nonneg.
    assert (0 < 2 ^ len l) by (apply Z.pow_pos_nonneg; [lia|apply len_nonneg]).
    destruct Hb; subst b; nia.
Qed.

Lemma _bitlistvalue_range (l : list Z) :
  Forall is_bit l -> 0 <= _bitlistvalue l < 2 ^ len l.
Proof.
  intros Hall. pose proof (fold_bits_range l 0 Hall (Z.le_refl 0)) as H.
  unfold _bitlistvalue. lia.
Qed.

Lemma in_firstn {A : Type} (n : nat) (l : list A) (x : A) :
  In x (firstn n l) -> In x l.
Proof.
  intros H. rewrite <- (firstn_skipn n l). apply in_or_app. now left.
Qed.

Lemma in_skipn {A : Type} (n : nat) (l : list A) (x : A) :
  In x (skipn n l) -> In x l.
Proof.
  intros H. rewrite <- (firstn_skipn n l). apply in_or_app. now right.
Qed.

Lemma slice_Forall {A : Type} (P : A -> Prop) (s : list A) (a b : Z) :
  Forall P s -> Forall P (slice s a b).
Proof.
  intros H. unfold slice. apply Forall_forall. intros x Hx.
  apply (proj1 (Forall_forall P s) H).
  eapply in_skipn, in_firstn. exact Hx.
Qed.

Lemma index_in_range {A : Type} (s : list A) (i : Z) :
  0 <= i < len s -> exists a, index s i = OK a /\ In a s.
Proof.
  intros Hi. rewrite index_nonneg by lia.
  destruct (nth_error s (Z.to_nat i)) as [a|] eqn:E.
  - exists a. split; [reflexivity|]. eapply nth_error_In; eauto.
  - apply nth_error_None in E. unfold len in Hi. lia.
Qed.

Lemma and_row_size_eq (width : Z) :
  Z.shiftl (Z.shiftr (width + 31) 5) 2 = 4 * ((width + 31) / 32).
Proof.
  rewrite Z.shiftl_mul_pow2, Z.shiftr_div_pow2 by lia.
  change (2 ^ 5) with 32. change (2 ^ 2) with 4. lia.
Qed.

Lemma unpack_dib_fields (s : bytes) (dib : dib_header) :
  unpack_dib s = OK dib -> 0 <= dib_bpp dib /\ 0 <= dib_image_size dib.
Proof.
  unfold unpack_dib. intros H. bind_inv H. inversion H; subst; clear H.
  cbn [dib_bpp dib_image_size]. split; apply le_uint_range.
Qed.

Lemma read_palette_spec (data : bytes) (offset color_count : Z) :
  0 <= offset -> 0 <= color_count ->
  offset + 40 + color_count * 4 <= len data ->
  exists palette,
    read_palette data offset 40 color_count = OK palette /\
    len palette = color_count.
Proof.
  intros Hoff Hcc Hlen. unfold read_palette. fold (xrange color_count).
  destruct (mapM_all_OK
              (fun i => unpack_BBBB (slice data (offset + 40 + 4 * i)
                                               (offset + 40 + 4 * i + 4)))
              (xrange color_count)) as [raw Hraw].
  { intros i Hi. apply xrange_In in Hi.
    destruct (unpack_BBBB_slice data (offset + 40 + 4 * i))
      as (b0 & b1 & b2 & b3 & _ & E); [lia|lia|eauto]. }
  rewrite Hraw. simpl bind. eexists; split; [reflexivity|].
  destruct (mapM_OK_nth _ _ _ Hraw) as [Hl _].
  unfold len. rewrite length_map, Hl, xrange_length. lia.
Qed.

Lemma get_pixel_length (width height bits_per_pixel and_row_size : Z)
    (palette : list (Z * Z * Z)) (xor_data_bits and_data_bits : list Z)
    (x y : Z) (q : list Z) :
  get_pixel width height bits_per_pixel and_row_size palette
            xor_data_bits and_data_bits x y = OK q ->
  length q = 4%nat.
Proof.
  unfold get_pixel. intros H. bind_inv H.
  destruct (a =? 1); [inversion H; reflexivity|].
  bind_inv H. destruct a0 as [[r g] b]. inversion H; reflexivity.
Qed.

Lemma index_OK_In {A : Type} (s : list A) (i : Z) (a : A) :
  index s i = OK a -> In a s.
Proof.
  unfold index. destruct (_ <? 0); [discriminate|].
  destruct (nth_error s _) eqn:E; [|discriminate].
  intros H; inversion H; subst. eapply nth_error_In; eauto.
Qed.

(** The two branches of [get_pixel], read off a returned pixel. *)
Lemma get_pixel_OK (width height bits_per_pixel and_row_size : Z)
    (palette : list (Z * Z * Z)) (xor_data_bits and_data_bits : list Z)
    (x y : Z) (q : list Z) :
  Forall is_bit and_data_bits ->
  get_pixel width height bits_per_pixel and_row_size palette
            xor_data_bits and_data_bits x y = OK q ->
  let srcRow := height - y - 1 in
  let rowStrideBits := and_row_size * 8 in
  let xor_index :=
    _bitlistvalue
      (slice xor_data_bits
         (bits_per_pixel * (srcRow * width + x))
         (bits_per_pixel * (srcRow * width + x) + bits_per_pixel)) in
  exists bit,
    index and_data_bits (srcRow * rowStrideBits + x) = OK bit /\
    is_bit bit /\
    (bit = 1 -> q = [0; 0; 0; 0]) /\
    (bit = 0 ->
     exists r g b, index palette xor_index = OK (r, g, b) /\ q = [r; g; b; 255]).
Proof.
  intros Hbits H srcRow rowStrideBits xor_index.
  unfold get_pixel in H. bind_inv H. rename a into bit.
  replace ((height - y - 1) * and_row_size * 8 + x)
    with (srcRow * rowStrideBits + x) in Ha
    by (unfold srcRow, rowStrideBits; ring).
  exists bit. split; [exact Ha|].
  split; [exact (proj1 (Forall_forall _ _) Hbits _ (index_OK_In _ _ _ Ha))|].
  split.
  - intros ->. simpl in H. inversion H; reflexivity.
  - intros ->. simpl (0 =? 1) in H. cbv iota in H.
    bind_inv H. destruct a as [[r g] b]. inversion H; subst q.
    exists r, g, b. split; [exact Ha0|reflexivity].
Qed.

Section GetPixel.

Variables width height bits_per_pixel and_row_size : Z.
Variable palette : list (Z * Z * Z).
Variables xor_data_bits and_data_bits : list Z.

Hypothesis width_nonneg : 0 <= width.
Hypothesis depth_nonneg : 0 <= bits_per_pixel.
Hypothesis row_holds_width : width <= and_row_size * 8.
Hypothesis palette_len : len palette = 2 ^ bits_per_pixel.
Hypothesis xor_are_bits : Forall is_bit xor_data_bits.
Hypothesis and_are_bits : Forall is_bit and_data_bits.
Hypothesis and_len : len and_data_bits = 8 * (and_row_size * height).

(** A colour index read from the XOR map is below the palette size. *)
Lemma xor_index_in_palette (a : Z) :
  0 <= a ->
  0 <= _bitlistvalue (slice xor_data_bits a (a + bits_per_pixel)) < len palette.
Proof.
  intros Ha.
  pose proof (_bitlistvalue_range _
                (slice_Forall is_bit xor_data_bits a (a + bits_per_pixel)
                   xor_are_bits)) as Hv.
  assert (Hl : len (slice xor_data_bits a (a + bits_per_pixel)) <= bits_per_pixel)
    by (rewrite slice_len by lia; lia).
  pose proof (Z.pow_le_mono_r 2 _ _ ltac:(lia) Hl).
  rewrite palette_len. lia.
Qed.

(** With the whole mask present, neither list index of [get_pixel] is
    out of range. *)
Lemma get_pixel_total (x y : Z) :
  0 <= x < width -> 0 <= y < height ->
  exists q,
    get_pixel width height bits_per_pixel and_row_size palette
              xor_data_bits and_data_bits x y = OK q.
Proof.
  intros Hx Hy. unfold get_pixel.
  destruct (index_in_range and_data_bits
              ((height - y - 1) * and_row_size * 8 + x)) as (bit & Hbit & _).
  { rewrite and_len. nia. }
  rewrite Hbit. simpl bind. destruct (bit =? 1); [eauto|].
  match goal with
  | |- context [index palette ?v] =>
      destruct (index_in_range palette v) as ([[r g] b] & Hp & _)
  end.
  { apply xor_index_in_palette. nia. }
  rewrite Hp. simpl. eauto.
Qed.

End GetPixel.

Lemma and_row_holds_width (width : Z) :
  width <= Z.shiftl (Z.shiftr (width + 31) 5) 2 * 8.
Proof.
  rewrite and_row_size_eq.
  pose proof (Z.div_mod (width + 31) 32 ltac:(lia)).
  pose proof (Z.mod_pos_bound (width + 31) 32 ltac:(lia)). lia.
Qed.

Lemma and_row_size_nonneg (width : Z) :
  0 <= width -> 0 <= Z.shiftl (Z.shiftr (width + 31) 5) 2.
Proof.
  intros Hw. rewrite and_row_size_eq.
  pose proof (Z.div_pos (width + 31) 32 ltac:(lia) ltac:(lia)). lia.
Qed.

Lemma palette_pixels_grid (data : bytes)
    (width height offset bits_per_pixel bmp_data_bytes : Z)
    (palette : list (Z * Z * Z)) :
  let color_count := 2 ^ bits_per_pixel in
  let and_row_size := Z.shiftl (Z.shiftr (width + 31) 5) 2 in
  read_palette data offset 40 color_count = OK palette ->
  palette_pixels data width height offset 40 bits_per_pixel bmp_data_bytes =
  (quads <- mapM (fun y =>
        mapM (fun x =>
            get_pixel width height bits_per_pixel and_row_size palette
              (xor_bits data offset 40 color_count bmp_data_bytes)
              (and_bits data offset 40 color_count bmp_data_bytes
                        and_row_size height) x y)
          (xrange width))
      (xrange height) ;;
   OK (map (@concat Z) quads)).
Proof.
  intros color_count and_row_size Hpal. unfold palette_pixels.
  fold color_count. rewrite Hpal. simpl bind. now rewrite mapM_bind_pure.
Qed.

(** With palette, colour indices and mask inside the buffer, the palette
    branch returns rows. *)
Lemma palette_pixels_total (data : bytes)
    (width height offset bits_per_pixel bmp_data_bytes : Z) :
  0 <= offset -> 0 <= width -> 0 <= height ->
  0 <= bits_per_pixel -> 0 <= bmp_data_bytes ->
  offset + 40 + 2 ^ bits_per_pixel * 4 + bmp_data_bytes
    + Z.shiftl (Z.shiftr (width + 31) 5) 2 * height <= len data ->
  exists pixels,
    palette_pixels data width height offset 40 bits_per_pixel bmp_data_bytes
    = OK pixels.
Proof.
  intros Hoff Hw Hh Hbpp Hbmp Hlen.
  set (color_count := 2 ^ bits_per_pixel) in *.
  set (and_row_size := Z.shiftl (Z.shiftr (width + 31) 5) 2) in *.
  assert (Hcc : 0 < color_count) by (apply Z.pow_pos_nonneg; lia).
  assert (Hars : 0 <= and_row_size) by now apply and_row_size_nonneg.
  assert (Harsh : 0 <= and_row_size * height) by nia.
  destruct (read_palette_spec data offset color_count)
    as (palette & Hpal & Hpallen); try lia.
  rewrite (palette_pixels_grid _ _ _ _ _ _ _ Hpal).
  fold color_count and_row_size.
  match goal with
  | |- context [mapM (fun y => mapM (fun x => ?g x y) _) _] =>
      destruct (mapM_grid_total (fun x y => g x y) (xrange height) width)
        as (quads & Hquads)
  end.
  { intros x y Hy Hx. apply xrange_In in Hy.
    apply get_pixel_total; try assumption;
      try apply and_row_holds_width; try apply bits_of_bits.
    unfold and_bits. rewrite bits_of_len, slice_len by lia. lia. }
  rewrite Hquads. simpl. eauto.
Qed.

(** The rows the palette branch returns, pixel by pixel. *)
Lemma palette_pixels_OK (data : bytes)
    (width height offset bits_per_pixel bmp_data_bytes : Z)
    (pixels : list (list Z)) :
  palette_pixels data width height offset 40 bits_per_pixel bmp_data_bytes
  = OK pixels ->
  let color_count := 2 ^ bits_per_pixel in
  let and_row_size := Z.shiftl (Z.shiftr (width + 31) 5) 2 in
  let xor_data_bits := xor_bits data offset 40 color_count bmp_data_bytes in
  let and_data_bits :=
    and_bits data offset 40 color_count bmp_data_bytes and_row_size height in
  exists palette,
    read_palette data offset 40 color_count = OK palette /\
    forall x y,
      0 <= x < width -> 0 <= y < height ->
      let srcRow := height - y - 1 in
      let rowStrideBits := and_row_size * 8 in
      let xor_index :=
        _bitlistvalue
          (slice xor_data_bits
             (bits_per_pixel * (srcRow * width + x))
             (bits_per_pixel * (srcRow * width + x) + bits_per_pixel)) in
      exists bit,
        index and_data_bits (srcRow * rowStrideBits + x) = OK bit /\
        is_bit bit /\
        (bit = 1 -> pixel_at pixels x y = Some [0; 0; 0; 0]) /\
        (bit = 0 ->
         exists r g b,
           index palette xor_index = OK (r, g, b) /\
           pixel_at pixels x y = Some [r; g; b; 255]).
Proof.
  intros Hpx color_count and_row_size xor_data_bits and_data_bits.
  destruct (read_palette data offset 40 color_count) as [palette|e] eqn:Hpal;
    [|unfold palette_pixels in Hpx; fold color_count in Hpx;
      rewrite Hpal in Hpx; discriminate].
  exists palette. split; [reflexivity|].
  rewrite (palette_pixels_grid _ _ _ _ _ _ _ Hpal) in Hpx.
  fold color_count and_row_size xor_data_bits and_data_bits in Hpx.
  bind_inv Hpx. rename a into quads. inversion Hpx; subst pixels; clear Hpx.
  destruct (mapM_grid_OK _ _ _ _ Ha) as [_ Hcell].
  intros x y Hx Hy srcRow rowStrideBits xor_index.
  destruct (Hcell (Z.to_nat y) y (Z.to_nat x)) as (row & q & Hrow & Hq & Hpq & Hall);
    [rewrite xrange_nth by lia; f_equal; lia|lia|].
  rewrite Z2Nat.id in Hpq by lia.
  assert (Hat : pixel_at (map (@concat Z) quads) x y = Some q).
  { apply pixel_at_map_concat with (row := row); try assumption; try lia.
    apply Forall_forall. intros q' Hq'.
    destruct (Hall q' Hq') as (x' & _ & E).
    eapply get_pixel_length; eauto. }
  destruct (get_pixel_OK _ _ _ _ _ _ _ _ _ _ (bits_of_bits _) Hpq)
    as (bit & Hbit & Hb & H1 & H0).
  exists bit. split; [exact Hbit|]. split; [exact Hb|]. split.
  - intros E. rewrite <- (H1 E). exact Hat.
  - intros E. destruct (H0 E) as (r & g & b & Hidx & ->).
    exists r, g, b. split; [exact Hidx|exact Hat].
Qed.

(** C4: for a palette image (depth at most 8), every pixel [(x, y)] of
    the rows handed to the PNG writer is decided by the mask bit at
    [srcRow * rowStrideBits + x], with [srcRow = height - y - 1] and
    [rowStrideBits = (((width + 31) >> 5) << 2) * 8]: where that bit is 1
    the pixel is (0, 0, 0, 0) whatever its colour index, and where it is
    0 the pixel is the palette colour at its colour index followed by
    255; the bit is always one of the two.  Rows are handed over whenever
    palette, colour indices and mask lie inside the buffer. *)
Theorem mask_bit_decides_pixel (data : bytes) (d : directory)
    (dib_size : Z) (dib : dib_header) :
  select data = OK d ->
  read_dib data (d_offset d) = OK (dib_size, dib) ->
  dib_bpp dib <= 8 ->
  let width := d_width d in
  let height := d_height d in
  let offset := d_offset d in
  let bits_per_pixel := dib_bpp dib in
  let color_count := 2 ^ bits_per_pixel in
  let bmp_data_bytes :=
    if dib_image_size dib =? 0 then width * height * bits_per_pixel / 8
    else dib_image_size dib in
  let and_row_size := Z.shiftl (Z.shiftr (width + 31) 5) 2 in
  let xor_data_bits := xor_bits data offset 40 color_count bmp_data_bytes in
  let and_data_bits :=
    and_bits data offset 40 color_count bmp_data_bytes and_row_size height in
  (offset + 40 + color_count * 4 + bmp_data_bytes + and_row_size * height
     <= len data ->
   exists pixels, ico2png data = OK (Written width height pixels)) /\
  (forall out,
      ico2png data = OK out ->
      exists palette pixels,
        out = Written width height pixels /\
        read_palette data offset 40 color_count = OK palette /\
        forall x y,
          0 <= x < width -> 0 <= y < height ->
          let srcRow := height - y - 1 in
          let rowStrideBits := and_row_size * 8 in
          let xor_index :=
            _bitlistvalue
              (slice xor_data_bits
                 (bits_per_pixel * (srcRow * width + x))
                 (bits_per_pixel * (srcRow * width + x) + bits_per_pixel)) in
          exists bit,
            index and_data_bits (srcRow * rowStrideBits + x) = OK bit /\
            (bit = 0 \/ bit = 1) /\
            (bit = 1 -> pixel_at pixels x y = Some [0; 0; 0; 0]) /\
            (bit = 0 ->
             exists r g b,
               index palette xor_index = OK (r, g, b) /\
               pixel_at pixels x y = Some [r; g; b; 255])).
Proof.
  intros Hs Hdib Hbpp width height offset bits_per_pixel color_count
         bmp_data_bytes and_row_size xor_data_bits and_data_bits.
  destruct (select_fields _ _ Hs) as (Hw & Hh & Hoff).
  destruct (read_dib_OK _ _ _ _ Hdib) as (-> & _ & Hu).
  destruct (unpack_dib_fields _ _ Hu) as [Hb0 Hsz0].
  assert (Hbmp : 0 <= bmp_data_bytes).
  { unfold bmp_data_bytes. destruct (dib_image_size dib =? 0); [|exact Hsz0].
    apply Z.div_pos; [|lia]. unfold width, height, bits_per_pixel. nia. }
  assert (E : ico2png data =
              (pixels <- palette_pixels data width height offset 40
                           bits_per_pixel bmp_data_bytes ;;
               OK (Written width height pixels))).
  { unfold ico2png. rewrite Hs. simpl bind.
    rewrite (convert_entry_dib _ _ _ _ Hoff Hdib). unfold dib_pixels.
    destruct (Z.leb_spec (dib_bpp dib) 8); [reflexivity|lia]. }
  rewrite E. split.
  - intros Hlen.
    destruct (palette_pixels_total data width height offset bits_per_pixel
                bmp_data_bytes) as (pixels & Hpx);
      try (unfold width, height, offset; lia); try assumption.
    exists pixels. rewrite Hpx. reflexivity.
  - intros out Hout. bind_inv Hout. rename a into pixels.
    destruct (palette_pixels_OK _ _ _ _ _ _ _ Ha) as (palette & Hpal & Hrest).
    exists palette, pixels. inversion Hout; subst out.
    split; [reflexivity|]. split; [exact Hpal|exact Hrest].
Qed.

Example ico_1bpp_2x2_pixels :
  ico2png ico_1bpp_2x2 =
  OK (Written 2 2 [[0; 255; 0; 255; 0; 255; 0; 255];
                   [0; 255; 0; 255; 0; 0; 0; 0]]).
Proof. vm_compute. reflexivity. Qed.

Lemma mask_bit_decides_pixel_witness :
  exists palette pixels,
    ico2png ico_1bpp_2x2 = OK (Written 2 2 pixels) /\
    read_palette ico_1bpp_2x2 22 40 2 = OK palette /\
    forall x y,
      0 <= x < 2 -> 0 <= y < 2 ->
      exists bit,
        index (and_bits ico_1bpp_2x2 22 40 2 8 4 2) ((2 - y - 1) * (4 * 8) + x)
          = OK bit /\
        (bit = 0 \/ bit = 1) /\
        (bit = 1 -> pixel_at pixels x y = Some [0; 0; 0; 0]) /\
        (bit = 0 ->
         exists r g b,
           index palette
             (_bitlistvalue
                (slice (xor_bits ico_1bpp_2x2 22 40 2 8)
                   (1 * ((2 - y - 1) * 2 + x))
                   (1 * ((2 - y - 1) * 2 + x) + 1))) = OK (r, g, b) /\
           pixel_at pixels x y = Some [r; g; b; 255]).
Proof.
  destruct (mask_bit_decides_pixel ico_1bpp_2x2
              (mkDirectory 2 2 2 0 1 1 64 22) 40
              (mkDib 40 2 4 1 1 0 8 0 0 0 0)) as [Htotal Hrows].
  - vm_compute. reflexivity.
  - vm_compute. reflexivity.
  - vm_compute. intros H; discriminate H.
  - destruct Htotal as [pixels Hpx].
    + vm_compute. intros H; discriminate H.
    + destruct (Hrows _ Hpx) as (palette & pixels' & Eout & Hpal & Hat).
      exists palette, pixels'. split; [rewrite Hpx, Eout; reflexivity|].
      split; [exact Hpal|exact Hat].
Defined.

(** * Further properties of the source *)

(** ** The two bit helpers (lines 182-185) *)

Lemma land_1_mod_2 (v : Z) : Z.land v 1 = v mod 2.
Proof. exact (Z.land_ones v 1 ltac:(lia)). Qed.

Lemma halve_step (b k : Z) :
  0 < k -> b / k = 2 * (b / (k * 2)) + (b / k) mod 2.
Proof.
  intros Hk. rewrite <- Z.div_div by lia.
  apply Z.div_mod. lia.
Qed.

(** X1: reading back the bits of an integer gives the integer modulo
    256: [_bitlistvalue] undoes [_bitlist] on every byte value, and on
    any other integer only the low eight bits survive. *)
Theorem bitlistvalue_of_bitlist (byte : Z) :
  _bitlistvalue (_bitlist byte) = byte mod 256.
Proof.
  unfold _bitlist, _bitlistvalue.
  change (xrange3 7 (-1) (-1)) with [7; 6; 5; 4; 3; 2; 1; 0].
  cbn [map fold_left]. rewrite !land_1_mod_2.
  change (2 ^ 7) with 128. change (2 ^ 6) with 64. change (2 ^ 5) with 32.
  change (2 ^ 4) with 16. change (2 ^ 3) with 8. change (2 ^ 2) with 4.
  change (2 ^ 1) with 2. change (2 ^ 0) with 1.
  pose proof (halve_step byte 1 ltac:(lia)) as H0.
  pose proof (halve_step byte 2 ltac:(lia)) as H1.
  pose proof (halve_step byte 4 ltac:(lia)) as H2.
  pose proof (halve_step byte 8 ltac:(lia)) as H3.
  pose proof (halve_step byte 16 ltac:(lia)) as H4.
  pose proof (halve_step byte 32 ltac:(lia)) as H5.
  pose proof (halve_step byte 64 ltac:(lia)) as H6.
  pose proof (halve_step byte 128 ltac:(lia)) as H7.
  change (1 * 2) with 2 in H0. change (2 * 2) with 4 in H1.
  change (4 * 2) with 8 in H2. change (8 * 2) with 16 in H3.
  change (16 * 2) with 32 in H4. change (32 * 2) with 64 in H5.
  change (64 * 2) with 128 in H6. change (128 * 2) with 256 in H7.
  rewrite Z.div_1_r in H0.
  pose proof (Z.mod_pos_bound (byte / 1) 2 ltac:(lia)) as B0.
  rewrite Z.div_1_r in B0.
  pose proof (Z.mod_pos_bound (byte / 2) 2 ltac:(lia)).
  pose proof (Z.mod_pos_bound (byte / 4) 2 ltac:(lia)).
  pose proof (Z.mod_pos_bound (byte / 8) 2 ltac:(lia)).
  pose proof (Z.mod_pos_bound (byte / 16) 2 ltac:(lia)).
  pose proof (Z.mod_pos_bound (byte / 32) 2 ltac:(lia)).
  pose proof (Z.mod_pos_bound (byte / 64) 2 ltac:(lia)).
  pose proof (Z.mod_pos_bound (byte / 128) 2 ltac:(lia)).
  rewrite Z.div_1_r.
  apply (Z.mod_unique_pos byte 256 (byte / 256)); lia.
Qed.

(** X2: the bits of the value of eight bits are those eight bits:
    [_bitlist] undoes [_bitlistvalue] on lists of eight bits. *)
Theorem bitlist_of_bitlistvalue (l : list Z) :
  length l = 8%nat -> Forall is_bit l ->
  _bitlist (_bitlistvalue l) = l.
Proof.
  intros Hlen Hbits.
  destruct l as [|b7 [|b6 [|b5 [|b4 [|b3 [|b2 [|b1 [|b0 [|b l]]]]]]]]];
    try discriminate Hlen.
  repeat match goal with
         | H : Forall is_bit (_ :: _) |- _ => inversion H; subst; clear H
         end.
  repeat match goal with
         | H : is_bit _ |- _ => destruct H; subst
         end; reflexivity.
Qed.

Lemma bitlist_of_bitlistvalue_witness :
  _bitlist (_bitlistvalue [1; 0; 1; 0; 0; 1; 0; 1]) = [1; 0; 1; 0; 0; 1; 0; 1].
Proof.
  apply bitlist_of_bitlistvalue.
  - reflexivity.
  - repeat constructor; (left; reflexivity) || (right; reflexivity).
Defined.

(** ** Comprehensions that raise *)

Lemma mapM_Err_inv {A B : Type} (f : A -> result B) (l : list A) (e : exn) :
  mapM f l = Err e -> exists a, In a l /\ f a = Err e.
Proof.
  induction l as [|a0 l IH]; simpl; [discriminate|].
  destruct (f a0) as [b|e0] eqn:E0; simpl.
  - destruct (mapM f l) as [bs|e1]; simpl; [discriminate|].
    intros H; inversion H; subst. destruct IH as (a & Ha & Hfa); eauto.
  - intros H; inversion H; subst. eauto.
Qed.

Lemma mapM_OK_or_Err {A B : Type} (f : A -> result B) (l : list A) (e : exn) :
  (forall a, In a l -> f a = Err e \/ exists b, f a = OK b) ->
  mapM f l = Err e \/ exists bs, mapM f l = OK bs.
Proof.
  intros H. destruct (mapM f l) as [bs|e'] eqn:E; [eauto|].
  destruct (mapM_Err_inv _ _ _ E) as (a & Ha & Hfa).
  destruct (H a Ha) as [H1|[b H1]]; rewrite H1 in Hfa; [|discriminate].
  inversion Hfa; subst. now left.
Qed.

(** ** Direct colour: rows of fixed-size pixels *)

Section PixelGrid.

Variable A : Type.
Variable unpack : bytes -> result A.
Variable k : Z.
Variable data : bytes.
Variables width height base : Z.

Hypothesis unpack_sized : forall s, len s = k -> exists a, unpack s = OK a.
Hypothesis unpack_raises : forall s, len s <> k -> unpack s = Err StructError.
Hypothesis k_pos : 0 < k.
Hypothesis width_pos : 1 <= width.
Hypothesis height_pos : 1 <= height.
Hypothesis base_nonneg : 0 <= base.

Let cell (x y : Z) : result A :=
  unpack (slice data (base + k * (y * width + x)) (base + k * (y * width + x) + k)).

Lemma cell_cases (x y : Z) :
  cell x y = Err StructError \/ exists a, cell x y = OK a.
Proof.
  unfold cell.
  destruct (Z.eq_dec (len (slice data (base + k * (y * width + x))
                                      (base + k * (y * width + x) + k))) k)
    as [E|E].
  - right. now apply unpack_sized.
  - left. now apply unpack_raises.
Qed.

Lemma grid_truncated :
  len data < base + k * (width * height) ->
  mapM (fun y => mapM (fun x => cell x y) (xrange width))
       (xrange3 (height - 1) (-1) (-1)) = Err StructError.
Proof.
  intros Hlen. apply mapM_Err.
  - intros y _. apply mapM_OK_or_Err. intros x _. apply cell_cases.
  - exists (height - 1). split; [apply xrange_down_In; lia|].
    apply mapM_Err.
    + intros x _. apply cell_cases.
    + exists (width - 1). split; [apply xrange_In; lia|].
      unfold cell. apply unpack_raises.
      assert (Hn : width * height = (height - 1) * width + (width - 1) + 1) by ring.
      rewrite Hn in Hlen.
      assert (H0 : 0 <= (height - 1) * width + (width - 1)) by nia.
      set (n := (height - 1) * width + (width - 1)) in *.
      assert (0 <= k * n) by (apply Z.mul_nonneg_nonneg; lia).
      rewrite slice_len by lia. pose proof (len_nonneg data). lia.
Qed.

Lemma grid_complete :
  base + k * (width * height) <= len data ->
  exists rows,
    mapM (fun y => mapM (fun x => cell x y) (xrange width))
         (xrange3 (height - 1) (-1) (-1)) = OK rows.
Proof.
  intros Hlen. apply mapM_grid_total. intros x y Hy Hx.
  apply xrange_down_In in Hy. unfold cell. apply unpack_sized.
  assert (H0 : 0 <= y * width + x) by nia.
  assert (H1 : y * width + x + 1 <= width * height) by nia.
  set (n := y * width + x) in *.
  assert (0 <= k * n) by (apply Z.mul_nonneg_nonneg; lia).
  assert (k * n + k <= k * (width * height)) by nia.
  rewrite slice_len by lia. lia.
Qed.

End PixelGrid.

Lemma unpack_BBBB_sized (s : bytes) : len s = 4 -> exists a, unpack_BBBB s = OK a.
Proof.
  destruct s as [|b0 [|b1 [|b2 [|b3 [|b4 s]]]]]; unfold len; simpl; try lia.
  eauto.
Qed.

Lemma unpack_BBBB_raises (s : bytes) : len s <> 4 -> unpack_BBBB s = Err StructError.
Proof.
  destruct s as [|b0 [|b1 [|b2 [|b3 [|b4 s]]]]]; unfold len; simpl; try reflexivity.
  lia.
Qed.

Lemma unpack_BBB_sized (s : bytes) : len s = 3 -> exists a, unpack_BBB s = OK a.
Proof.
  destruct s as [|b0 [|b1 [|b2 [|b3 s]]]]; unfold len; simpl; try lia.
  eauto.
Qed.

Lemma unpack_BBB_raises (s : bytes) : len s <> 3 -> unpack_BBB s = Err StructError.
Proof.
  destruct s as [|b0 [|b1 [|b2 [|b3 s]]]]; unfold len; simpl; try reflexivity.
  lia.
Qed.

(** ** Direct colour, 24 bits per pixel (lines 155-170) *)

Lemma unpack_BBB_slice (data : bytes) (p : Z) :
  0 <= p -> p + 3 <= len data ->
  exists b0 b1 b2,
    slice data p (p + 3) = [b0; b1; b2] /\
    unpack_BBB (slice data p (p + 3)) = OK (byte_val b0, byte_val b1, byte_val b2).
Proof.
  intros Hp Hlen.
  assert (H : len (slice data p (p + 3)) = 3) by (rewrite slice_len; lia).
  destruct (slice data p (p + 3)) as [|b0 [|b1 [|b2 [|b3 s]]]];
    unfold len in H; simpl in H; try lia.
  exists b0, b1, b2. split; reflexivity.
Qed.

Lemma rgb24_pixels_spec (data : bytes) (width height offset : Z) :
  0 <= offset -> 0 <= width -> 0 <= height ->
  offset + 40 + 3 * (width * height) <= len data ->
  exists pixels,
    rgb24_pixels data width height offset 40 = OK pixels /\
    len pixels = height /\
    forall x y,
      0 <= x < width -> 0 <= y < height ->
      let p := offset + 40 + 3 * ((height - 1 - y) * width + x) in
      exists b0 b1 b2,
        slice data p (p + 3) = [b0; b1; b2] /\
        pixel_at pixels x y = Some [byte_val b2; byte_val b1; byte_val b0; 255].
Proof.
  intros Hoff Hw Hh Hlen. unfold rgb24_pixels.
  pose (f := fun x y =>
               unpack_BBB (slice data (offset + 40 + 3 * (y * width + x))
                                      (offset + 40 + 3 * (y * width + x) + 3))).
  pose (g := fun px : Z * Z * Z => let '(p0, p1, p2) := px in [p2; p1; p0; 255]).
  assert (Hin : forall x y, 0 <= x < width -> 0 <= y < height ->
                            0 <= offset + 40 + 3 * (y * width + x) /\
                            offset + 40 + 3 * (y * width + x) + 3 <= len data)
    by (intros; nia).
  destruct (mapM_grid_total f (xrange3 (height - 1) (-1) (-1)) width)
    as (rows & Hrows).
  { intros x y Hy Hx. apply xrange_down_In in Hy.
    destruct (Hin x y Hx Hy) as [H0 H3].
    destruct (unpack_BBB_slice data _ H0 H3) as (b0 & b1 & b2 & _ & E).
    unfold f. eauto. }
  destruct (mapM_grid_OK _ _ _ _ Hrows) as (Hlenrows & Hcell).
  unfold f in Hrows; cbv beta in Hrows. rewrite Hrows. simpl bind.
  eexists; split; [reflexivity|]. split.
  { unfold len. rewrite length_map, Hlenrows, xrange_down_length. lia. }
  cbv zeta. intros x y Hx Hy.
  destruct (Hcell (Z.to_nat y) (height - 1 - y) (Z.to_nat x))
    as (row & a & Hrow & Ha & Hfa & _); [|lia|].
  { rewrite xrange_down_nth by lia. f_equal. lia. }
  rewrite Z2Nat.id in Hfa by lia.
  assert (Hy' : 0 <= height - 1 - y < height) by lia.
  destruct (Hin x _ Hx Hy') as [H0 H3].
  destruct (unpack_BBB_slice data _ H0 H3) as (b0 & b1 & b2 & Es & Eu).
  exists b0, b1, b2. split; [exact Es|].
  unfold f in Hfa. rewrite Eu in Hfa. inversion Hfa; subst a; clear Hfa.
  fold g.
  rewrite (map_ext _ (fun row => concat (map g row)))
    by (intros r; apply flat_map_concat_map).
  rewrite <- (map_map (map g) (@concat Z)).
  apply pixel_at_map_concat with (row := map g row); try lia.
  - now rewrite nth_error_map, Hrow.
  - apply Forall_forall. intros q Hq. apply in_map_iff in Hq as (px & <- & _).
    destruct px as [[p0 p1] p2]. reflexivity.
  - now rewrite nth_error_map, Ha.
Qed.

Lemma ico2png_dib (data : bytes) (d : directory) (dib_size : Z) (dib : dib_header) :
  select data = OK d ->
  read_dib data (d_offset d) = OK (dib_size, dib) ->
  ico2png data =
  (pixels <- dib_pixels data (d_width d) (d_height d) (d_offset d) 40 dib ;;
   OK (Written (d_width d) (d_height d) pixels)).
Proof.
  intros Hs Hdib. destruct (select_fields _ _ Hs) as (_ & _ & Hoff).
  destruct (read_dib_OK _ _ _ _ Hdib) as (-> & _ & _).
  unfold ico2png. rewrite Hs. simpl bind.
  now rewrite (convert_entry_dib _ _ _ _ Hoff Hdib).
Qed.

Lemma dib_pixels_24 (data : bytes) (width height offset : Z) (dib : dib_header) :
  dib_bpp dib = 24 ->
  dib_pixels data width height offset 40 dib
  = rgb24_pixels data width height offset 40.
Proof. intros E. unfold dib_pixels. rewrite E. reflexivity. Qed.

(** X3: for a 24-bit image whose pixel data lie in the buffer, [ico2png]
    hands rows to the PNG writer in which pixel [(x, y)] is (red, green,
    blue, 255), the colour bytes being the third, second and first byte
    of the three-byte source pixel at
    [offset + 40 + 3 * ((height - 1 - y) * width + x)]: rows are packed
    without padding, stored bottom to top, and every pixel is opaque. *)
Theorem rgb24_pixels_are_opaque (data : bytes) (d : directory)
    (dib_size : Z) (dib : dib_header) :
  select data = OK d ->
  read_dib data (d_offset d) = OK (dib_size, dib) ->
  dib_bpp dib = 24 ->
  d_offset d + 40 + 3 * (d_width d * d_height d) <= len data ->
  exists pixels,
    ico2png data = OK (Written (d_width d) (d_height d) pixels) /\
    len pixels = d_height d /\
    forall x y,
      0 <= x < d_width d -> 0 <= y < d_height d ->
      let p := d_offset d + 40 + 3 * ((d_height d - 1 - y) * d_width d + x) in
      exists b0 b1 b2,
        slice data p (p + 3) = [b0; b1; b2] /\
        pixel_at pixels x y = Some [byte_val b2; byte_val b1; byte_val b0; 255].
Proof.
  intros Hs Hdib Hbpp Hlen.
  destruct (select_fields _ _ Hs) as (Hw & Hh & Hoff).
  destruct (rgb24_pixels_spec data (d_width d) (d_height d) (d_offset d))
    as (pixels & Hpx & Hrest); try lia.
  exists pixels. split; [|exact Hrest].
  rewrite (ico2png_dib _ _ _ _ Hs Hdib), dib_pixels_24, Hpx by assumption.
  reflexivity.
Qed.

Lemma rgb24_pixels_are_opaque_witness :
  exists pixels,
    ico2png ico_24bpp = OK (Written 1 2 pixels) /\
    len pixels = 2 /\
    forall x y,
      0 <= x < 1 -> 0 <= y < 2 ->
      let p := 22 + 40 + 3 * ((2 - 1 - y) * 1 + x) in
      exists b0 b1 b2,
        slice ico_24bpp p (p + 3) = [b0; b1; b2] /\
        pixel_at pixels x y = Some [byte_val b2; byte_val b1; byte_val b0; 255].
Proof.
  apply (rgb24_pixels_are_opaque ico_24bpp
           (mkDirectory 1 2 256 0 1 24 54 22) 40
           (mkDib 40 1 4 1 24 0 0 0 0 0 0)).
  - vm_compute. reflexivity.
  - vm_compute. reflexivity.
  - reflexivity.
  - vm_compute. intros H; discriminate H.
Defined.

Example ico_24bpp_pixels :
  ico2png ico_24bpp = OK (Written 1 2 [[96; 80; 64; 255]; [48; 32; 16; 255]]).
Proof. vm_compute. reflexivity. Qed.

(** ** Which branch, which exception *)

Lemma png_test_iff (data : bytes) (offset : Z) :
  0 <= offset ->
  bytes_eqb (slice data offset (offset + 16)) png_signature = true <->
  slice_from data offset = png_signature.
Proof.
  intros Hoff. split.
  - intros H. destruct (png_test_true _ _ Hoff H) as (Hlen & H8 & _).
    rewrite slice_from_nonneg by lia. rewrite <- H8.
    rewrite slice_nonneg by lia. symmetry. apply firstn_all2.
    rewrite length_skipn. unfold len in Hlen. lia.
  - intros H. apply bytes_eqb_eq.
    rewrite slice_nonneg by lia. rewrite <- slice_from_nonneg by lia.
    rewrite H. replace (offset + 16 - offset) with 16 by lia. reflexivity.
Qed.

Lemma ico2png_OK (data : bytes) (out : output) :
  ico2png data = OK out ->
  exists d, select data = OK d /\ convert_entry data d = OK out.
Proof. unfold ico2png. intros H. bind_inv H. eauto. Qed.

(** X4: the only embedded PNG [ico2png] ever returns is the bare
    eight-byte signature: line 77 is reached exactly when the bytes from
    the selected offset to the end of the buffer are the signature and
    nothing more. *)
Theorem verbatim_only_for_bare_signature (data : bytes) (png : bytes) :
  ico2png data = OK (Verbatim png) <->
  exists d,
    select data = OK d /\
    slice_from data (d_offset d) = png_signature /\
    png = png_signature.
Proof.
  split.
  - intros H. apply ico2png_OK in H as (d & Hs & Hc). exists d.
    destruct (select_fields _ _ Hs) as (_ & _ & Hoff).
    unfold convert_entry in Hc.
    destruct (bytes_eqb _ png_signature) eqn:E.
    + apply png_test_iff in E; [|exact Hoff].
      inversion Hc; subst png. auto.
    + bind_inv Hc. destruct a as [dib_size dib]. bind_inv Hc. discriminate.
  - intros (d & Hs & Hsig & ->). now apply bare_signature_is_returned with d.
Qed.

Lemma read_header_Err (data : bytes) (e : exn) :
  read_header data = Err e -> e = TypeError NotAnICO.
Proof.
  unfold read_header. destruct (unpack_3H _) as [[[h0 h1] h2]|e0]; [|congruence].
  destruct (negb _); congruence.
Qed.

Lemma read_header_Err_iff (data : bytes) :
  read_header data = Err (TypeError NotAnICO) <->
  len data < 6 \/ (le_uint (slice data 0 2), le_uint (slice data 2 4)) <> (0, 1).
Proof.
  destruct (Z_lt_ge_dec (len data) 6) as [Hshort|Hlong].
  - split; [now left|]. intros _. now apply read_header_short.
  - unfold read_header. rewrite read_header_fields by lia.
    destruct (Z.eqb_spec (le_uint (slice data 0 2)) 0) as [E0|E0];
      destruct (Z.eqb_spec (le_uint (slice data 2 4)) 1) as [E1|E1]; simpl;
      (split; [intros H; try discriminate H; right; congruence
              |intros [H|H]; [lia|try reflexivity; exfalso; apply H; congruence]]).
Qed.

Lemma read_header_count (data : bytes) (image_count : Z) :
  read_header data = OK image_count -> 0 <= image_count < 65536.
Proof.
  intros H. apply read_header_OK in H as [_ H].
  unfold unpack_3H in H. bind_inv H. inversion H; subst.
  apply sized_OK in Ha as [-> Hlen].
  pose proof (le_uint_range (slice (slice data 0 6) 4 6)) as R.
  rewrite slice_len in R by lia. rewrite Hlen in R.
  change (256 ^ Z.max 0 (Z.min 6 6 - 4)) with 65536 in R. lia.
Qed.

Lemma read_directory_Err (data : bytes) (i : Z) (e : exn) :
  read_directory data i = Err e -> e = StructError.
Proof.
  intros H. destruct (read_directory_cases data i) as [E|[d E]];
    rewrite E in H; congruence.
Qed.

Lemma read_directories_Err (data : bytes) (image_count : Z) (e : exn) :
  read_directories data image_count = Err e -> e = StructError.
Proof.
  intros H. apply mapM_Err_inv in H as (i & _ & H).
  now apply read_directory_Err in H.
Qed.

Lemma read_directories_length (data : bytes) (image_count : Z)
    (directories : list directory) :
  read_directories data image_count = OK directories ->
  length directories = Z.to_nat image_count.
Proof.
  intros H. destruct (mapM_OK_nth _ _ _ H) as [Hl _].
  now rewrite Hl, xrange_length.
Qed.

(** The stage at which [select] stops. *)
Lemma select_Err (data : bytes) (e : exn) :
  select data = Err e ->
  (e = TypeError NotAnICO /\ read_header data = Err (TypeError NotAnICO)) \/
  (e = StructError /\
   exists n, read_header data = OK n /\
             read_directories data n = Err StructError) \/
  (e = ValueError /\ read_header data = OK 0).
Proof.
  unfold select. intros H.
  destruct (read_header data) as [n|e0] eqn:Hh; simpl in H.
  - destruct (read_directories data n) as [dirs|e1] eqn:Hd; simpl in H.
    + right; right. destruct dirs as [|d0 rest]; simpl in H; [|discriminate].
      inversion H; subst. split; [reflexivity|].
      apply read_directories_length in Hd. apply read_header_count in Hh.
      simpl in Hd. f_equal. lia.
    + right; left. inversion H; subst.
      pose proof (read_directories_Err _ _ _ Hd); subst. eauto.
  - left. inversion H; subst.
    pose proof (read_header_Err _ _ Hh); subst. auto.
Qed.

Lemma unpack_I_Err (s : bytes) (e : exn) : unpack_I s = Err e -> e = StructError.
Proof. unfold unpack_I, sized. destruct (len s =? 4); simpl; congruence. Qed.

Lemma unpack_dib_Err (s : bytes) (e : exn) : unpack_dib s = Err e -> e = StructError.
Proof. unfold unpack_dib, sized. destruct (len s =? 40); simpl; congruence. Qed.

Lemma read_dib_Err (data : bytes) (offset : Z) (e : exn) :
  read_dib data offset = Err e ->
  e = StructError \/
  (e = TypeError DibNot40 /\
   exists dib_size,
     unpack_I (slice data offset (offset + 4)) = OK dib_size /\ dib_size <> 40).
Proof.
  unfold read_dib. intros H.
  destruct (unpack_I _) as [sz|e0] eqn:Hu; simpl in H.
  - destruct (Z.eqb_spec sz 40) as [->|Hne]; simpl in H.
    + left. destruct (unpack_dib _) as [dib|e1] eqn:Hd; simpl in H; [discriminate|].
      inversion H; subst. now apply unpack_dib_Err in Hd.
    + right. inversion H; subst. eauto.
  - left. inversion H; subst. now apply unpack_I_Err in Hu.
Qed.

Lemma index_Err {A : Type} (s : list A) (i : Z) (e : exn) :
  index s i = Err e -> e = IndexError.
Proof.
  unfold index. destruct (_ <? 0); [congruence|].
  destruct (nth_error s _); congruence.
Qed.

Lemma get_pixel_Err (width height bits_per_pixel and_row_size : Z)
    (palette : list (Z * Z * Z)) (xor_data_bits and_data_bits : list Z)
    (x y : Z) (e : exn) :
  get_pixel width height bits_per_pixel and_row_size palette
            xor_data_bits and_data_bits x y = Err e ->
  e = IndexError.
Proof.
  unfold get_pixel. intros H.
  destruct (index and_data_bits _) as [bit|e0] eqn:Hb; simpl in H.
  - destruct (bit =? 1); [discriminate|].
    destruct (index palette _) as [[[r g] b]|e1] eqn:Hp; simpl in H;
      [discriminate|].
    inversion H; subst. now apply index_Err in Hp.
  - inversion H; subst. now apply index_Err in Hb.
Qed.

Lemma unpack_BBBB_Err (s : bytes) (e : exn) : unpack_BBBB s = Err e -> e = StructError.
Proof.
  destruct s as [|b0 [|b1 [|b2 [|b3 [|b4 s]]]]]; simpl; congruence.
Qed.

Lemma unpack_BBB_Err (s : bytes) (e : exn) : unpack_BBB s = Err e -> e = StructError.
Proof.
  destruct s as [|b0 [|b1 [|b2 [|b3 s]]]]; simpl; congruence.
Qed.

Lemma read_palette_Err (data : bytes) (offset dib_size color_count : Z) (e : exn) :
  read_palette data offset dib_size color_count = Err e -> e = StructError.
Proof.
  unfold read_palette. intros H.
  destruct (mapM _ _) as [raw|e0] eqn:Hm; simpl in H; [discriminate|].
  inversion H; subst. apply mapM_Err_inv in Hm as (i & _ & Hi).
  now apply unpack_BBBB_Err in Hi.
Qed.

Lemma palette_pixels_Err (data : bytes)
    (width height offset dib_size bits_per_pixel bmp_data_bytes : Z) (e : exn) :
  palette_pixels data width height offset dib_size bits_per_pixel bmp_data_bytes
  = Err e ->
  e = StructError \/ e = IndexError.
Proof.
  unfold palette_pixels. intros H.
  destruct (read_palette _ _ _ _) as [palette|e0] eqn:Hp; simpl in H.
  - right. apply mapM_Err_inv in H as (y & _ & Hy).
    destruct (mapM _ (xrange width)) as [quads|e1] eqn:Hq; simpl in Hy;
      [discriminate|].
    inversion Hy; subst. apply mapM_Err_inv in Hq as (x & _ & Hx).
    now apply get_pixel_Err in Hx.
  - left. inversion H; subst. now apply read_palette_Err in Hp.
Qed.

Lemma rgb32_pixels_Err (data : bytes) (width height offset dib_size : Z) (e : exn) :
  rgb32_pixels data width height offset dib_size = Err e -> e = StructError.
Proof.
  unfold rgb32_pixels. intros H.
  destruct (mapM _ _) as [raw|e0] eqn:Hm; simpl in H; [discriminate|].
  inversion H; subst. apply mapM_Err_inv in Hm as (y & _ & Hy).
  apply mapM_Err_inv in Hy as (x & _ & Hx). now apply unpack_BBBB_Err in Hx.
Qed.

Lemma rgb24_pixels_Err (data : bytes) (width height offset dib_size : Z) (e : exn) :
  rgb24_pixels data width height offset dib_size = Err e -> e = StructError.
Proof.
  unfold rgb24_pixels. intros H.
  destruct (mapM _ _) as [raw|e0] eqn:Hm; simpl in H; [discriminate|].
  inversion H; subst. apply mapM_Err_inv in Hm as (y & _ & Hy).
  apply mapM_Err_inv in Hy as (x & _ & Hx). now apply unpack_BBB_Err in Hx.
Qed.

(** The branch in which [dib_pixels] raises. *)
Lemma dib_pixels_Err (data : bytes) (width height offset dib_size : Z)
    (dib : dib_header) (e : exn) :
  dib_pixels data width height offset dib_size dib = Err e ->
  (dib_bpp dib <= 8 /\ (e = StructError \/ e = IndexError)) \/
  ((dib_bpp dib = 32 \/ dib_bpp dib = 24) /\ e = StructError) \/
  (8 < dib_bpp dib /\ dib_bpp dib <> 32 /\ dib_bpp dib <> 24 /\
   e = TypeError PixelDepth).
Proof.
  unfold dib_pixels. intros H.
  destruct (Z.leb_spec (dib_bpp dib) 8).
  - left. split; [assumption|]. eapply palette_pixels_Err; eauto.
  - right. destruct (Z.eqb_spec (dib_bpp dib) 32).
    + left. split; [now left|]. eapply rgb32_pixels_Err; eauto.
    + destruct (Z.eqb_spec (dib_bpp dib) 24).
      * left. split; [now right|]. eapply rgb24_pixels_Err; eauto.
      * right. inversion H; subst. auto.
Qed.

Lemma dib_pixels_depth (data : bytes) (width height offset dib_size : Z)
    (dib : dib_header) :
  8 < dib_bpp dib -> dib_bpp dib <> 32 -> dib_bpp dib <> 24 ->
  dib_pixels data width height offset dib_size dib = Err (TypeError PixelDepth).
Proof.
  intros H8 H32 H24. unfold dib_pixels.
  destruct (Z.leb_spec (dib_bpp dib) 8); [lia|].
  destruct (Z.eqb_spec (dib_bpp dib) 32); [contradiction|].
  destruct (Z.eqb_spec (dib_bpp dib) 24); [contradiction|reflexivity].
Qed.

(** The stage at which [convert_entry] raises. *)
Lemma convert_entry_Err (data : bytes) (d : directory) (e : exn) :
  convert_entry data d = Err e ->
  bytes_eqb (slice data (d_offset d) (d_offset d + 16)) png_signature = false /\
  (read_dib data (d_offset d) = Err e \/
   exists dib_size dib,
     read_dib data (d_offset d) = OK (dib_size, dib) /\
     dib_pixels data (d_width d) (d_height d) (d_offset d) dib_size dib = Err e).
Proof.
  unfold convert_entry. intros H.
  destruct (bytes_eqb _ png_signature); [discriminate|]. split; [reflexivity|].
  destruct (read_dib data (d_offset d)) as [[dib_size dib]|e0] eqn:Hd; simpl in H.
  - right. exists dib_size, dib. split; [reflexivity|].
    destruct (dib_pixels _ _ _ _ _ _) as [pixels|e1]; simpl in H; congruence.
  - left. congruence.
Qed.

Lemma ico2png_Err (data : bytes) (e : exn) :
  ico2png data = Err e ->
  select data = Err e \/
  exists d, select data = OK d /\ convert_entry data d = Err e.
Proof.
  unfold ico2png. destruct (select data) as [d|e0]; simpl; intros H.
  - right. eauto.
  - left. congruence.
Qed.

(** Every exception of the later stages, with the input facts that
    produce it. *)
Lemma convert_entry_Err_cases (data : bytes) (d : directory) (e : exn) :
  convert_entry data d = Err e ->
  e = StructError \/ e = IndexError \/
  (e = TypeError DibNot40 /\
   bytes_eqb (slice data (d_offset d) (d_offset d + 16)) png_signature = false /\
   exists dib_size,
     unpack_I (slice data (d_offset d) (d_offset d + 4)) = OK dib_size /\
     dib_size <> 40) \/
  (e = TypeError PixelDepth /\
   exists dib_size dib,
     read_dib data (d_offset d) = OK (dib_size, dib) /\
     8 < dib_bpp dib /\ dib_bpp dib <> 24 /\ dib_bpp dib <> 32).
Proof.
  intros H. apply convert_entry_Err in H as [Hpng [H|(sz & dib & Hd & H)]].
  - apply read_dib_Err in H as [->|[-> Hsz]]; [now left|].
    right; right; left. auto.
  - apply dib_pixels_Err in H
      as [[_ [->| ->]]|[[_ ->]|(H8 & H32 & H24 & ->)]]; auto.
    right; right; right. split; [reflexivity|]. exists sz, dib. auto.
Qed.

(** X5: the [TypeError] of lines 45 and 47 is raised for a short or
    wrongly marked header and for nothing else: no later stage of
    [ico2png] reports "not an ICO". *)
Theorem not_an_ico_iff_bad_header (data : bytes) :
  ico2png data = Err (TypeError NotAnICO) <->
  len data < 6 \/
  (le_uint (slice data 0 2), le_uint (slice data 2 4)) <> (0, 1).
Proof.
  rewrite <- read_header_Err_iff. split.
  - intros H. apply ico2png_Err in H as [H|(d & _ & H)].
    + apply select_Err in H as [[_ H]|[[H _]|[H _]]]; [exact H| |]; discriminate.
    + apply convert_entry_Err_cases in H
        as [H|[H|[[H _]|[H _]]]]; discriminate.
  - intros H. unfold ico2png, select. rewrite H. reflexivity.
Qed.

(** X6: [ValueError] leaves [ico2png] exactly when the header is valid and
    announces zero images; the [max] of line 62 is its only source. *)
Theorem value_error_iff_zero_images (data : bytes) :
  ico2png data = Err ValueError <-> unpack_3H (slice data 0 6) = OK (0, 1, 0).
Proof.
  split.
  - intros H. apply ico2png_Err in H as [H|(d & _ & H)].
    + apply select_Err in H as [[H _]|[[H _]|[_ H]]]; try discriminate.
      now apply read_header_OK in H.
    + apply convert_entry_Err_cases in H
        as [H|[H|[[H _]|[H _]]]]; discriminate.
  - intros H. unfold ico2png, select, read_header. rewrite H. reflexivity.
Qed.

(** X7: the [TypeError] of line 81 is raised exactly when an entry is
    selected, the bytes from its offset on are not the bare PNG
    signature, and four bytes are readable there whose little-endian
    value is not 40. *)
Theorem dib_not_40_iff (data : bytes) :
  ico2png data = Err (TypeError DibNot40) <->
  exists d dib_size,
    select data = OK d /\
    slice_from data (d_offset d) <> png_signature /\
    unpack_I (slice data (d_offset d) (d_offset d + 4)) = OK dib_size /\
    dib_size <> 40.
Proof.
  split.
  - intros H. apply ico2png_Err in H as [H|(d & Hs & H)].
    + apply select_Err in H as [[H _]|[[H _]|[H _]]]; discriminate.
    + destruct (select_fields _ _ Hs) as (_ & _ & Hoff).
      apply convert_entry_Err_cases in H
        as [H|[H|[(_ & Hpng & sz & Hu & Hsz)|[H _]]]]; try discriminate.
      exists d, sz. repeat split; try assumption.
      intros E. apply png_test_iff in E; [|exact Hoff]. congruence.
  - intros (d & sz & Hs & Hpng & Hu & Hsz).
    destruct (select_fields _ _ Hs) as (_ & _ & Hoff).
    unfold ico2png. rewrite Hs. simpl bind. unfold convert_entry.
    destruct (bytes_eqb _ png_signature) eqn:E.
    + apply png_test_iff in E; [contradiction|exact Hoff].
    + unfold read_dib. rewrite Hu. simpl bind.
      destruct (Z.eqb_spec sz 40); [contradiction|reflexivity].
Qed.

(** X8: the [TypeError] of line 172 is raised exactly when an entry is
    selected, its 40-byte header is read, and the depth in it is above 8
    and neither 24 nor 32. *)
Theorem pixel_depth_error_iff (data : bytes) :
  ico2png data = Err (TypeError PixelDepth) <->
  exists d dib_size dib,
    select data = OK d /\
    read_dib data (d_offset d) = OK (dib_size, dib) /\
    8 < dib_bpp dib /\ dib_bpp dib <> 24 /\ dib_bpp dib <> 32.
Proof.
  split.
  - intros H. apply ico2png_Err in H as [H|(d & Hs & H)].
    + apply select_Err in H as [[H _]|[[H _]|[H _]]]; discriminate.
    + apply convert_entry_Err_cases in H
        as [H|[H|[[H _]|(_ & sz & dib & Hd & Hb)]]]; try discriminate.
      exists d, sz, dib. auto.
  - intros (d & sz & dib & Hs & Hd & H8 & H24 & H32).
    rewrite (ico2png_dib _ _ _ _ Hs Hd).
    now rewrite dib_pixels_depth.
Qed.

(** C3, as the code behaves: the depth in the DIB header decides the
    branch.  A depth above 8 other than 24 and 32 raises the [TypeError]
    of line 172 and no pixel is produced.  A depth of at most 8 (0, 3, 5,
    6 and 7 among them) is never refused: line 88 sends it to the palette
    branch, whose result is the result of [ico2png]; no [TypeError] is
    raised, and rows are handed to the PNG writer whenever palette,
    colour indices and mask lie inside the buffer. *)
Theorem pixel_depth_dispatch (data : bytes) (d : directory)
    (dib_size : Z) (dib : dib_header) :
  select data = OK d ->
  read_dib data (d_offset d) = OK (dib_size, dib) ->
  let width := d_width d in
  let height := d_height d in
  let offset := d_offset d in
  let bits_per_pixel := dib_bpp dib in
  let bmp_data_bytes :=
    if dib_image_size dib =? 0 then width * height * bits_per_pixel / 8
    else dib_image_size dib in
  let and_row_size := Z.shiftl (Z.shiftr (width + 31) 5) 2 in
  (8 < bits_per_pixel -> bits_per_pixel <> 24 -> bits_per_pixel <> 32 ->
   ico2png data = Err (TypeError PixelDepth)) /\
  (bits_per_pixel <= 8 ->
   ico2png data =
   (pixels <- palette_pixels data width height offset 40
                bits_per_pixel bmp_data_bytes ;;
    OK (Written width height pixels)) /\
   (forall site, ico2png data <> Err (TypeError site)) /\
   (offset + 40 + 2 ^ bits_per_pixel * 4 + bmp_data_bytes
      + and_row_size * height <= len data ->
    exists pixels, ico2png data = OK (Written width height pixels))).
Proof.
  intros Hs Hdib width height offset bits_per_pixel bmp_data_bytes and_row_size.
  destruct (select_fields _ _ Hs) as (Hw & Hh & Hoff).
  destruct (read_dib_OK _ _ _ _ Hdib) as (_ & _ & Hu).
  destruct (unpack_dib_fields _ _ Hu) as [Hb0 Hsz0].
  rewrite (ico2png_dib _ _ _ _ Hs Hdib). split.
  - intros H8 H24 H32. now rewrite dib_pixels_depth.
  - intros H8.
    assert (E : dib_pixels data width height offset 40 dib
                = palette_pixels data width height offset 40
                    bits_per_pixel bmp_data_bytes).
    { unfold dib_pixels. destruct (Z.leb_spec (dib_bpp dib) 8); [reflexivity|].
      unfold bits_per_pixel in H8. lia. }
    fold width height offset. rewrite E. split; [reflexivity|]. split.
    + intros site H.
      destruct (palette_pixels data width height offset 40 bits_per_pixel
                  bmp_data_bytes) as [pixels|e] eqn:Hp; simpl in H;
        [discriminate|].
      apply palette_pixels_Err in Hp as [->| ->]; discriminate.
    + intros Hlen.
      assert (Hbmp : 0 <= bmp_data_bytes).
      { unfold bmp_data_bytes. destruct (dib_image_size dib =? 0); [|exact Hsz0].
        apply Z.div_pos; [|lia]. unfold width, height, bits_per_pixel. nia. }
      destruct (palette_pixels_total data width height offset bits_per_pixel
                  bmp_data_bytes) as (pixels & Hpx);
        try (unfold width, height, offset; lia); try assumption.
      exists pixels. rewrite Hpx. reflexivity.
Qed.

(** A depth of 16 is refused; a depth of 3 is decoded through the
    palette. *)
Lemma pixel_depth_dispatch_witness :
  ico2png ico_16bpp = Err (TypeError PixelDepth) /\
  (forall site, ico2png ico_3bpp <> Err (TypeError site)) /\
  exists pixels, ico2png ico_3bpp = OK (Written 1 1 pixels).
Proof.
  destruct (pixel_depth_dispatch ico_16bpp
              (mkDirectory 1 1 256 0 1 16 42 22) 40
              (mkDib 40 1 2 1 16 0 0 0 0 0 0)
              ltac:(vm_compute; reflexivity) ltac:(vm_compute; reflexivity))
    as [Hhigh _].
  destruct (pixel_depth_dispatch ico_3bpp
              (mkDirectory 1 1 8 0 1 3 80 22) 40
              (mkDib 40 1 2 1 3 0 4 0 0 0 0)
              ltac:(vm_compute; reflexivity) ltac:(vm_compute; reflexivity))
    as [_ Hlow].
  split.
  - apply Hhigh.
    + vm_compute. reflexivity.
    + intros H; discriminate H.
    + intros H; discriminate H.
  - destruct Hlow as (_ & Hno & Hrows).
    + vm_compute. intros H; discriminate H.
    + split; [exact Hno|]. apply Hrows. vm_compute. intros H; discriminate H.
Defined.

(** ** The rows handed to the PNG writer *)

Lemma concat_cells_shape (cells : list (list Z)) :
  Forall (fun q => length q = 4%nat /\ Forall (fun c => 0 <= c <= 255) q) cells ->
  len (concat cells) = 4 * len cells /\
  Forall (fun c => 0 <= c <= 255) (concat cells).
Proof.
  induction 1 as [|q cells [Hq Hc] _ [IHl IHc]].
  - split; [reflexivity|constructor].
  - cbn [concat]. split.
    + unfold len in *. rewrite length_app, Hq. cbn [length]. lia.
    + apply Forall_app. auto.
Qed.

Lemma grid_rows_shape {A : Type} (f : Z -> Z -> result A) (g : A -> list Z)
    (ys : list Z) (w : Z) (rows : list (list A)) :
  0 <= w ->
  (forall x y a, f x y = OK a ->
                 length (g a) = 4%nat /\ Forall (fun c => 0 <= c <= 255) (g a)) ->
  mapM (fun y => mapM (fun x => f x y) (xrange w)) ys = OK rows ->
  length rows = length ys /\
  Forall (fun row => len row = 4 * w /\ Forall (fun c => 0 <= c <= 255) row)
         (map (fun row => concat (map g row)) rows).
Proof.
  intros Hw Hg Hrows.
  destruct (mapM_OK_nth _ _ _ Hrows) as [Hlen _]. split; [exact Hlen|].
  apply Forall_map, Forall_forall. intros row Hrow.
  destruct (mapM_OK_In _ _ _ _ Hrows Hrow) as (y & _ & Hinner).
  destruct (mapM_OK_nth _ _ _ Hinner) as [Hl _].
  destruct (concat_cells_shape (map g row)) as [Hcl Hcc].
  { apply Forall_map, Forall_forall. intros a Ha.
    destruct (mapM_OK_In _ _ _ _ Hinner Ha) as (x & _ & Hfx). eauto. }
  split; [|exact Hcc].
  rewrite Hcl. unfold len. rewrite length_map, Hl, xrange_length. lia.
Qed.

Lemma unpack_BBBB_range (s : bytes) (px : Z * Z * Z * Z) :
  unpack_BBBB s = OK px ->
  let '(p0, p1, p2, p3) := px in
  0 <= p0 <= 255 /\ 0 <= p1 <= 255 /\ 0 <= p2 <= 255 /\ 0 <= p3 <= 255.
Proof.
  destruct s as [|b0 [|b1 [|b2 [|b3 [|b4 s]]]]]; simpl; try discriminate.
  intros H; inversion H; subst.
  repeat split; apply byte_val_range.
Qed.

Lemma unpack_BBB_range (s : bytes) (px : Z * Z * Z) :
  unpack_BBB s = OK px ->
  let '(p0, p1, p2) := px in
  0 <= p0 <= 255 /\ 0 <= p1 <= 255 /\ 0 <= p2 <= 255.
Proof.
  destruct s as [|b0 [|b1 [|b2 [|b3 s]]]]; simpl; try discriminate.
  intros H; inversion H; subst.
  repeat split; apply byte_val_range.
Qed.

Lemma read_palette_range (data : bytes) (offset dib_size color_count : Z)
    (palette : list (Z * Z * Z)) :
  read_palette data offset dib_size color_count = OK palette ->
  Forall (fun '(r, g, b) => 0 <= r <= 255 /\ 0 <= g <= 255 /\ 0 <= b <= 255)
         palette.
Proof.
  unfold read_palette. intros H. bind_inv H. inversion H; subst; clear H.
  apply Forall_map, Forall_forall. intros [[[c0 c1] c2] c3] Hc.
  destruct (mapM_OK_In _ _ _ _ Ha Hc) as (i & _ & Hi).
  apply unpack_BBBB_range in Hi. tauto.
Qed.

Lemma dib_pixels_shape (data : bytes) (width height offset : Z)
    (dib : dib_header) (pixels : list (list Z)) :
  0 <= width -> 0 <= height ->
  dib_pixels data width height offset 40 dib = OK pixels ->
  len pixels = height /\
  Forall (fun row => len row = 4 * width /\ Forall (fun c => 0 <= c <= 255) row)
         pixels.
Proof.
  intros Hw Hh. unfold dib_pixels.
  destruct (Z.leb_spec (dib_bpp dib) 8) as [H8|H8].
  - set (bmp := if dib_image_size dib =? 0 then _ else _).
    intros H.
    destruct (read_palette data offset 40 (2 ^ dib_bpp dib)) as [palette|e] eqn:Hp;
      [|unfold palette_pixels in H; rewrite Hp in H; discriminate].
    rewrite (palette_pixels_grid _ _ _ _ _ _ _ Hp) in H.
    bind_inv H. inversion H; subst pixels; clear H.
    assert (Hcell : forall x y q,
               get_pixel width height (dib_bpp dib)
                 (Z.shiftl (Z.shiftr (width + 31) 5) 2) palette
                 (xor_bits data offset 40 (2 ^ dib_bpp dib) bmp)
                 (and_bits data offset 40 (2 ^ dib_bpp dib) bmp
                    (Z.shiftl (Z.shiftr (width + 31) 5) 2) height) x y = OK q ->
               length q = 4%nat /\ Forall (fun c => 0 <= c <= 255) q).
    { intros x y q Hq. split; [eapply get_pixel_length; eauto|].
      destruct (get_pixel_OK _ _ _ _ _ _ _ _ _ _ (bits_of_bits _) Hq)
        as (bit & _ & [->| ->] & H1 & H0).
      - destruct (H0 eq_refl) as (r & g & b & Hidx & ->).
        apply index_OK_In in Hidx.
        pose proof (proj1 (Forall_forall _ _) (read_palette_range _ _ _ _ _ Hp)
                      _ Hidx) as Hrgb. cbv beta iota in Hrgb.
        repeat constructor; lia.
      - rewrite (H1 eq_refl). repeat constructor; lia. }
    destruct (grid_rows_shape _ (fun q : list Z => q) _ _ _ Hw Hcell Ha)
      as [Hl Hrows].
    rewrite (map_ext _ (@concat Z)) in Hrows
      by (intros r; now rewrite map_id).
    split; [|exact Hrows].
    unfold len. rewrite length_map, Hl, xrange_length. lia.
  - destruct (Z.eqb_spec (dib_bpp dib) 32) as [E32|E32].
    + unfold rgb32_pixels. intros H. bind_inv H. inversion H; subst pixels; clear H.
      assert (Hcell : forall x y px,
                 unpack_BBBB (slice data (offset + 40 + 4 * (y * width + x))
                                         (offset + 40 + 4 * (y * width + x) + 4))
                 = OK px ->
                 length (rgba_of_bgra px) = 4%nat /\
                 Forall (fun c => 0 <= c <= 255) (rgba_of_bgra px)).
      { intros x y [[[p0 p1] p2] p3] Hu. apply unpack_BBBB_range in Hu.
        split; [reflexivity|]. unfold rgba_of_bgra. repeat constructor; lia. }
      destruct (grid_rows_shape _ rgba_of_bgra _ _ _ Hw Hcell Ha) as [Hl Hrows].
      rewrite (map_ext _ (flat_map rgba_of_bgra)) in Hrows
        by (intros r; symmetry; apply flat_map_concat_map).
      split; [|exact Hrows].
      unfold len. rewrite length_map, Hl, xrange_down_length. lia.
    + destruct (Z.eqb_spec (dib_bpp dib) 24) as [E24|E24]; [|discriminate].
      unfold rgb24_pixels. intros H. bind_inv H. inversion H; subst pixels; clear H.
      pose (g := fun px : Z * Z * Z => let '(p0, p1, p2) := px in [p2; p1; p0; 255]).
      assert (Hcell : forall x y px,
                 unpack_BBB (slice data (offset + 40 + 3 * (y * width + x))
                                        (offset + 40 + 3 * (y * width + x) + 3))
                 = OK px ->
                 length (g px) = 4%nat /\ Forall (fun c => 0 <= c <= 255) (g px)).
      { intros x y [[p0 p1] p2] Hu. apply unpack_BBB_range in Hu.
        split; [reflexivity|]. unfold g. repeat constructor; lia. }
      destruct (grid_rows_shape _ g _ _ _ Hw Hcell Ha) as [Hl Hrows].
      rewrite (map_ext _ (flat_map g)) in Hrows
        by (intros r; symmetry; apply flat_map_concat_map).
      split; [|exact Hrows].
      unfold len. rewrite length_map, Hl, xrange_down_length. lia.
Qed.

(** X9: whenever [ico2png] hands rows to the PNG writer, the width and
    height it passes are those of the selected directory entry (between
    1 and 256; the DIB header's own width and height are not used), there
    are exactly [height] rows, every row holds [4 * width] values, and
    every value is between 0 and 255. *)
Theorem written_rows_shape (data : bytes) (width height : Z)
    (pixels : list (list Z)) :
  ico2png data = OK (Written width height pixels) ->
  (exists d, select data = OK d /\ width = d_width d /\ height = d_height d) /\
  1 <= width <= 256 /\ 1 <= height <= 256 /\
  len pixels = height /\
  Forall (fun row => len row = 4 * width /\ Forall (fun c => 0 <= c <= 255) row)
         pixels.
Proof.
  intros H. apply ico2png_OK in H as (d & Hs & Hc).
  destruct (select_fields _ _ Hs) as (Hw & Hh & Hoff).
  unfold convert_entry in Hc.
  destruct (bytes_eqb _ png_signature); [discriminate|].
  bind_inv Hc. destruct a as [dib_size dib]. bind_inv Hc.
  inversion Hc; subst width height a; clear Hc.
  destruct (read_dib_OK _ _ _ _ Ha) as (-> & _ & _).
  assert (Hw0 : 0 <= d_width d) by lia.
  assert (Hh0 : 0 <= d_height d) by lia.
  destruct (dib_pixels_shape _ _ _ _ _ _ Hw0 Hh0 Ha0) as [Hl Hrows].
  split; [eauto|]. auto.
Qed.

Lemma written_rows_shape_witness :
  len [[96; 80; 64; 255]; [48; 32; 16; 255]] = 2 /\
  Forall (fun row => len row = 4 * 1 /\ Forall (fun c => 0 <= c <= 255) row)
         [[96; 80; 64; 255]; [48; 32; 16; 255]].
Proof.
  assert (H : ico2png ico_24bpp
              = OK (Written 1 2 [[96; 80; 64; 255]; [48; 32; 16; 255]]))
    by (vm_compute; reflexivity).
  destruct (written_rows_shape _ _ _ _ H) as (_ & _ & _ & Hl & Hrows).
  split; [exact Hl|exact Hrows].
Defined.

(** ** Zero as 256, from the directory to the rows *)




(** ** Truncated images *)

Lemma index_out_of_range {A : Type} (s : list A) (i : Z) :
  0 <= i -> (index s i = Err IndexError <-> len s <= i).
Proof.
  intros Hi. rewrite index_nonneg by assumption. unfold len.
  destruct (nth_error s (Z.to_nat i)) as [a|] eqn:E.
  - split; [discriminate|]. intros Hl.
    assert (nth_error s (Z.to_nat i) <> None) by congruence.
    apply nth_error_Some in H. lia.
  - apply nth_error_None in E. split; [lia|reflexivity].
Qed.

Lemma read_palette_len (data : bytes) (offset dib_size color_count : Z)
    (palette : list (Z * Z * Z)) :
  0 <= color_count ->
  read_palette data offset dib_size color_count = OK palette ->
  len palette = color_count.
Proof.
  intros Hcc H. unfold read_palette in H. bind_inv H. inversion H; subst.
  destruct (mapM_OK_nth _ _ _ Ha) as [Hl _].
  unfold len. rewrite length_map, Hl. fold (xrange color_count).
  rewrite xrange_length. lia.
Qed.

Lemma get_pixel_cases (width height bits_per_pixel and_row_size : Z)
    (palette : list (Z * Z * Z)) (xor_data_bits and_data_bits : list Z) (x y : Z) :
  get_pixel width height bits_per_pixel and_row_size palette
            xor_data_bits and_data_bits x y = Err IndexError \/
  exists q, get_pixel width height bits_per_pixel and_row_size palette
                      xor_data_bits and_data_bits x y = OK q.
Proof.
  destruct (get_pixel _ _ _ _ _ _ _ x y) as [q|e] eqn:E; [eauto|].
  apply get_pixel_Err in E. subst. now left.
Qed.

(** Inside the image, [get_pixel] raises only for a missing mask bit. *)
Lemma get_pixel_Err_iff (width height bits_per_pixel and_row_size : Z)
    (palette : list (Z * Z * Z)) (xor_data_bits and_data_bits : list Z) (x y : Z) :
  0 <= width -> 0 <= bits_per_pixel -> 0 <= and_row_size ->
  len palette = 2 ^ bits_per_pixel ->
  Forall is_bit xor_data_bits ->
  0 <= x < width -> 0 <= y < height ->
  get_pixel width height bits_per_pixel and_row_size palette
            xor_data_bits and_data_bits x y = Err IndexError <->
  len and_data_bits <= (height - y - 1) * (and_row_size * 8) + x.
Proof.
  intros Hw Hbpp Hars Hpal Hxor Hx Hy.
  assert (Hidx : (height - y - 1) * and_row_size * 8 + x
                 = (height - y - 1) * (and_row_size * 8) + x) by ring.
  assert (H0 : 0 <= (height - y - 1) * (and_row_size * 8) + x) by nia.
  rewrite <- index_out_of_range by exact H0.
  unfold get_pixel. rewrite Hidx.
  destruct (index and_data_bits _) as [bit|e] eqn:Hb; simpl bind.
  - split; [|discriminate]. destruct (bit =? 1); [discriminate|].
    match goal with
    | |- context [index palette ?v] =>
        destruct (index_in_range palette v) as ([[r g] b] & Hp & _)
    end.
    { apply xor_index_in_palette; try assumption. nia. }
    rewrite Hp. discriminate.
  - apply index_Err in Hb. subst. tauto.
Qed.

(** X10: [IndexError] leaves [ico2png] exactly for a palette image (depth
    at most 8, palette readable) in which some pixel of the image needs a
    mask bit beyond the end of the mask bits found in the buffer. *)
Theorem index_error_iff_missing_mask_bit (data : bytes) :
  ico2png data = Err IndexError <->
  exists d dib_size dib palette,
    select data = OK d /\
    read_dib data (d_offset d) = OK (dib_size, dib) /\
    dib_bpp dib <= 8 /\
    let width := d_width d in
    let height := d_height d in
    let offset := d_offset d in
    let color_count := 2 ^ dib_bpp dib in
    let bmp_data_bytes :=
      if dib_image_size dib =? 0 then width * height * dib_bpp dib / 8
      else dib_image_size dib in
    let and_row_size := Z.shiftl (Z.shiftr (width + 31) 5) 2 in
    let and_data_bits :=
      and_bits data offset 40 color_count bmp_data_bytes and_row_size height in
    read_palette data offset 40 color_count = OK palette /\
    exists x y,
      0 <= x < width /\ 0 <= y < height /\
      len and_data_bits <= (height - y - 1) * (and_row_size * 8) + x.
Proof.
  split.
  - intros H. apply ico2png_Err in H as [H|(d & Hs & H)].
    { apply select_Err in H as [[H _]|[[H _]|[H _]]]; discriminate. }
    destruct (select_fields _ _ Hs) as (Hw & Hh & Hoff).
    apply convert_entry_Err in H as [_ [H|(sz & dib & Hd & H)]].
    { apply read_dib_Err in H as [H|[H _]]; discriminate. }
    destruct (read_dib_OK _ _ _ _ Hd) as (-> & _ & Hu).
    destruct (unpack_dib_fields _ _ Hu) as [Hb0 _].
    pose proof (dib_pixels_Err _ _ _ _ _ _ _ H)
      as [[H8 _]|[[_ E]|(_ & _ & _ & E)]]; try discriminate.
    unfold dib_pixels in H. destruct (Z.leb_spec (dib_bpp dib) 8); [|lia].
    destruct (read_palette data (d_offset d) 40 (2 ^ dib_bpp dib))
      as [palette|e] eqn:Hp;
      [|unfold palette_pixels in H; rewrite Hp in H; simpl in H;
        apply read_palette_Err in Hp; congruence].
    exists d, 40, dib, palette. repeat split; try assumption.
    rewrite (palette_pixels_grid _ _ _ _ _ _ _ Hp) in H.
    match type of H with
    | bind ?m _ = _ => destruct m as [quads|e] eqn:Hm; simpl in H; [discriminate|]
    end.
    inversion H; subst e; clear H.
    apply mapM_Err_inv in Hm as (y & Hy & Hm).
    apply mapM_Err_inv in Hm as (x & Hx & Hm).
    apply xrange_In in Hx. apply xrange_In in Hy.
    exists x, y. split; [exact Hx|]. split; [exact Hy|].
    apply read_palette_len in Hp; [|apply Z.pow_nonneg; lia].
    eapply get_pixel_Err_iff; try exact Hm; try assumption; try lia.
    + apply and_row_size_nonneg. lia.
    + apply bits_of_bits.
  - intros (d & sz & dib & palette & Hs & Hd & H8 & Hp & x & y & Hx & Hy & Hlen).
    destruct (select_fields _ _ Hs) as (Hw & Hh & Hoff).
    destruct (read_dib_OK _ _ _ _ Hd) as (_ & _ & Hu).
    destruct (unpack_dib_fields _ _ Hu) as [Hb0 _].
    rewrite (ico2png_dib _ _ _ _ Hs Hd). unfold dib_pixels.
    destruct (Z.leb_spec (dib_bpp dib) 8); [|lia].
    rewrite (palette_pixels_grid _ _ _ _ _ _ _ Hp).
    rewrite mapM_Err with (e := IndexError); [reflexivity| |].
    + intros y' _. apply mapM_OK_or_Err. intros x' _. apply get_pixel_cases.
    + exists y. split; [apply xrange_In; exact Hy|].
      apply mapM_Err.
      * intros x' _. apply get_pixel_cases.
      * exists x. split; [apply xrange_In; exact Hx|].
        apply read_palette_len in Hp; [|apply Z.pow_nonneg; lia].
        apply get_pixel_Err_iff; try assumption; try lia.
        -- apply and_row_size_nonneg. lia.
        -- apply bits_of_bits.
Qed.

(** ** Selection, continued *)

Lemma key_ltb_true (a b : Z * Z * Z) :
  key_ltb a b = true <-> key_le a b /\ a <> b.
Proof.
  destruct a as [[a0 a1] a2], b as [[b0 b1] b2]. unfold key_ltb, key_le.
  rewrite !orb_true_iff, !andb_true_iff, !Z.ltb_lt, !Z.eqb_eq. split.
  - intros Hlt. split; [lia|]. intros E; inversion E; lia.
  - intros [Hle Hne].
    assert (Hd : a0 <> b0 \/ a1 <> b1 \/ a2 <> b2).
    { destruct (Z.eq_dec a0 b0), (Z.eq_dec a1 b1), (Z.eq_dec a2 b2); auto.
      exfalso; apply Hne; congruence. }
    lia.
Qed.

Lemma key_lt_le_trans (a b c : Z * Z * Z) :
  key_ltb a b = true -> key_le b c -> key_ltb a c = true.
Proof.
  rewrite !key_ltb_true.
  destruct a as [[a0 a1] a2], b as [[b0 b1] b2], c as [[c0 c1] c2].
  unfold key_le. intros [H1 E1] H2. split; [lia|].
  intros E; inversion E; subst. apply E1. f_equal; [f_equal|]; lia.
Qed.

Lemma key_le_lt_trans (a b c : Z * Z * Z) :
  key_le a b -> key_ltb b c = true -> key_ltb a c = true.
Proof.
  rewrite !key_ltb_true.
  destruct a as [[a0 a1] a2], b as [[b0 b1] b2], c as [[c0 c1] c2].
  unfold key_le. intros H1 [H2 E2]. split; [lia|].
  intros E; inversion E; subst. apply E2. f_equal; [f_equal|]; lia.
Qed.

(** [max_from] keeps the running best unless a later entry is strictly
    larger, so its result is the first entry that carries the largest
    key. *)
Lemma max_from_first (rest : list directory) (best : directory) :
  max_from best rest = best \/
  exists i,
    nth_error rest i = Some (max_from best rest) /\
    key_ltb (key best) (key (max_from best rest)) = true /\
    forall j d',
      (j < i)%nat -> nth_error rest j = Some d' ->
      key_ltb (key d') (key (max_from best rest)) = true.
Proof.
  revert best. induction rest as [|d0 rest IH]; intros best; [now left|].
  change (max_from best (d0 :: rest))
    with (if key_ltb (key best) (key d0) then max_from d0 rest
          else max_from best rest).
  destruct (key_ltb (key best) (key d0)) eqn:E.
  - right. destruct (IH d0) as [Hm|(i & Hi & Hlt & Hbefore)].
    + exists 0%nat. rewrite Hm. split; [reflexivity|]. split; [exact E|].
      intros j d' Hj. lia.
    + exists (S i). split; [exact Hi|]. split.
      * apply key_lt_le_trans with (key d0); [exact E|].
        apply key_ltb_true in Hlt. tauto.
      * intros [|j] d' Hj Hd'; simpl in Hd'.
        -- inversion Hd'; subst. exact Hlt.
        -- apply (Hbefore j); [lia|exact Hd'].
  - apply key_ltb_spec in E. destruct (IH best) as [Hm|(i & Hi & Hlt & Hbefore)].
    + left. exact Hm.
    + right. exists (S i). split; [exact Hi|]. split; [exact Hlt|].
      intros [|j] d' Hj Hd'; simpl in Hd'.
      * inversion Hd'; subst. now apply key_le_lt_trans with (key best).
      * apply (Hbefore j); [lia|exact Hd'].
Qed.

(** X11: among directory entries with the same largest (width, height,
    colour count), [ico2png] decodes the one that comes first in the
    file: every entry before the selected one has a strictly smaller
    key. *)
Theorem selection_prefers_the_first_maximum (data : bytes) (image_count : Z)
    (directories : list directory) (d : directory) :
  read_header data = OK image_count ->
  read_directories data image_count = OK directories ->
  select data = OK d ->
  exists i,
    nth_error directories i = Some d /\
    forall j d',
      (j < i)%nat -> nth_error directories j = Some d' ->
      key_le (key d') (key d) /\ key d' <> key d.
Proof.
  intros Hh Hd Hs. unfold select in Hs. rewrite Hh in Hs. simpl in Hs.
  rewrite Hd in Hs. simpl in Hs.
  destruct directories as [|d0 rest]; simpl in Hs; [discriminate|].
  inversion Hs; subst d; clear Hs.
  destruct (max_from_first rest d0) as [Hm|(i & Hi & Hlt & Hbefore)].
  - exists 0%nat. rewrite Hm. split; [reflexivity|]. intros j d' Hj. lia.
  - exists (S i). split; [exact Hi|].
    intros [|j] d' Hj Hd'; simpl in Hd'; apply key_ltb_true.
    + inversion Hd'; subst. exact Hlt.
    + apply (Hbefore j); [lia|exact Hd'].
Qed.

Lemma selection_prefers_the_first_maximum_witness :
  exists i,
    nth_error [mkDirectory 16 16 16 0 1 4 296 54;
               mkDirectory 32 32 256 0 1 8 2216 350;
               mkDirectory 32 32 256 0 1 8 2216 2566] i
    = Some (mkDirectory 32 32 256 0 1 8 2216 350) /\
    forall j d',
      (j < i)%nat ->
      nth_error [mkDirectory 16 16 16 0 1 4 296 54;
                 mkDirectory 32 32 256 0 1 8 2216 350;
                 mkDirectory 32 32 256 0 1 8 2216 2566] j = Some d' ->
      key_le (key d') (key (mkDirectory 32 32 256 0 1 8 2216 350)) /\
      key d' <> key (mkDirectory 32 32 256 0 1 8 2216 350).
Proof.
  apply (selection_prefers_the_first_maximum ico_three_entries 3).
  - vm_compute. reflexivity.
  - vm_compute. reflexivity.
  - vm_compute. reflexivity.
Defined.

Lemma read_directory_full (data : bytes) (i : Z) :
  0 <= i -> 6 + 16 * i + 16 <= len data ->
  exists d, read_directory data i = OK d.
Proof.
  intros Hi Hlen. unfold read_directory, unpack_4B2H2I, sized.
  destruct (Z.eqb_spec (len (slice data (6 + 16 * i) (6 + 16 * i + 16))) 16)
    as [E|E]; [simpl; eauto|].
  rewrite slice_len in E by lia. lia.
Qed.

(** X12: an entry is selected exactly when the header is valid, announces
    at least one image, and all of its 16-byte directory records lie in
    the buffer. *)
Theorem entry_selected_iff (data : bytes) :
  (exists d, select data = OK d) <->
  exists image_count,
    read_header data = OK image_count /\
    1 <= image_count /\
    6 + 16 * image_count <= len data.
Proof.
  split.
  - intros [d Hs]. apply select_OK in Hs as (n & dirs & Hh & Hd & Hmax).
    exists n. split; [exact Hh|].
    pose proof (read_directories_length _ _ _ Hd) as Hl.
    assert (Hn : 1 <= n).
    { destruct dirs; [discriminate|]. simpl in Hl. lia. }
    split; [exact Hn|].
    destruct (Z_le_gt_dec (6 + 16 * n) (len data)) as [Hle|Hgt]; [exact Hle|].
    destruct (mapM_OK_nth _ _ _ Hd) as [_ Hnth].
    destruct (Hnth (Z.to_nat (n - 1)) (n - 1)) as (d' & _ & Hr).
    { rewrite xrange_nth by lia. f_equal. lia. }
    rewrite read_directory_short in Hr by lia. discriminate.
  - intros (n & Hh & Hn & Hlen).
    destruct (mapM_all_OK (read_directory data) (xrange n)) as [dirs Hd].
    { intros i Hi. apply xrange_In in Hi. apply read_directory_full; lia. }
    pose proof (read_directories_length _ _ _ Hd) as Hl.
    destruct dirs as [|d0 rest]; [simpl in Hl; lia|].
    exists (max_from d0 rest). unfold select. rewrite Hh. simpl bind.
    unfold read_directories. rewrite Hd. reflexivity.
Qed.

(** ** Palette colours *)

Lemma read_palette_index (data : bytes) (offset color_count i : Z)
    (palette : list (Z * Z * Z)) (r g b : Z) :
  read_palette data offset 40 color_count = OK palette ->
  0 <= i ->
  index palette i = OK (r, g, b) ->
  exists b0 b1 b2 b3,
    slice data (offset + 40 + 4 * i) (offset + 40 + 4 * i + 4) = [b0; b1; b2; b3] /\
    (r, g, b) = (byte_val b2, byte_val b1, byte_val b0).
Proof.
  intros Hp Hi Hidx. unfold read_palette in Hp. bind_inv Hp. rename a into raw.
  inversion Hp; subst palette; clear Hp.
  rewrite index_nonneg in Hidx by assumption.
  destruct (nth_error _ (Z.to_nat i)) as [c|] eqn:Hc; [|discriminate].
  inversion Hidx; subst c; clear Hidx.
  rewrite nth_error_map in Hc.
  destruct (nth_error raw (Z.to_nat i)) as [[[[c0 c1] c2] c3]|] eqn:Hraw;
    [|discriminate].
  simpl in Hc. inversion Hc; subst; clear Hc.
  destruct (mapM_OK_nth _ _ _ Ha) as [Hl Hnth].
  assert (Hlt : (Z.to_nat i < length raw)%nat) by (apply nth_error_Some; congruence).
  rewrite Hl in Hlt. fold (xrange color_count) in *. rewrite xrange_length in Hlt.
  destruct (Hnth (Z.to_nat i) i) as (c & Hc & Hu).
  { rewrite xrange_nth by lia. f_equal. lia. }
  rewrite Hraw in Hc. inversion Hc; subst c; clear Hc.
  destruct (slice data (offset + 40 + 4 * i) (offset + 40 + 4 * i + 4))
    as [|b0 [|b1 [|b2 [|b3 [|b4 s]]]]]; simpl in Hu; try discriminate.
  inversion Hu; subst. exists b0, b1, b2, b3. split; reflexivity.
Qed.

(** X13: in the rows of a palette image, a pixel whose mask bit is 0
    carries the colour stored in the palette entry of its colour index:
    the four bytes at [offset + 40 + 4 * index] are (blue, green, red,
    reserved), the pixel is (red, green, blue, 255), and the reserved
    byte is dropped. *)
Theorem opaque_pixel_is_palette_entry (data : bytes) (d : directory)
    (dib_size : Z) (dib : dib_header) (pixels : list (list Z)) :
  select data = OK d ->
  read_dib data (d_offset d) = OK (dib_size, dib) ->
  dib_bpp dib <= 8 ->
  ico2png data = OK (Written (d_width d) (d_height d) pixels) ->
  let width := d_width d in
  let height := d_height d in
  let offset := d_offset d in
  let bits_per_pixel := dib_bpp dib in
  let color_count := 2 ^ bits_per_pixel in
  let bmp_data_bytes :=
    if dib_image_size dib =? 0 then width * height * bits_per_pixel / 8
    else dib_image_size dib in
  let and_row_size := Z.shiftl (Z.shiftr (width + 31) 5) 2 in
  let xor_data_bits := xor_bits data offset 40 color_count bmp_data_bytes in
  let and_data_bits :=
    and_bits data offset 40 color_count bmp_data_bytes and_row_size height in
  forall x y,
    0 <= x < width -> 0 <= y < height ->
    let srcRow := height - y - 1 in
    let xor_index :=
      _bitlistvalue
        (slice xor_data_bits
           (bits_per_pixel * (srcRow * width + x))
           (bits_per_pixel * (srcRow * width + x) + bits_per_pixel)) in
    index and_data_bits (srcRow * (and_row_size * 8) + x) = OK 0 ->
    exists b0 b1 b2 b3,
      slice data (offset + 40 + 4 * xor_index) (offset + 40 + 4 * xor_index + 4)
      = [b0; b1; b2; b3] /\
      pixel_at pixels x y = Some [byte_val b2; byte_val b1; byte_val b0; 255].
Proof.
  intros Hs Hd H8 Hout width height offset bits_per_pixel color_count
         bmp_data_bytes and_row_size xor_data_bits and_data_bits
         x y Hx Hy srcRow xor_index Hbit.
  rewrite (ico2png_dib _ _ _ _ Hs Hd) in Hout. unfold dib_pixels in Hout.
  destruct (Z.leb_spec (dib_bpp dib) 8); [|lia].
  bind_inv Hout. inversion Hout; subst a; clear Hout.
  destruct (palette_pixels_OK _ _ _ _ _ _ _ Ha) as (palette & Hp & Hat).
  destruct (Hat x y Hx Hy) as (bit & Hbit' & _ & _ & H0).
  fold width height offset bits_per_pixel color_count bmp_data_bytes
       and_row_size xor_data_bits and_data_bits srcRow in Hbit'.
  rewrite Hbit in Hbit'. inversion Hbit'; subst bit.
  destruct (H0 eq_refl) as (r & g & b & Hidx & Hpx).
  destruct (read_palette_index _ _ _ _ _ _ _ _ Hp
              (proj1 (_bitlistvalue_range _
                        (slice_Forall is_bit _ _ _ (bits_of_bits _)))) Hidx)
    as (b0 & b1 & b2 & b3 & Hslice & Hrgb).
  inversion Hrgb; subst r g b.
  exists b0, b1, b2, b3. split; [exact Hslice|exact Hpx].
Qed.

Lemma opaque_pixel_is_palette_entry_witness :
  exists b0 b1 b2 b3,
    slice ico_1bpp_2x2 (22 + 40 + 4 * 1) (22 + 40 + 4 * 1 + 4) = [b0; b1; b2; b3] /\
    pixel_at [[0; 255; 0; 255; 0; 255; 0; 255]; [0; 255; 0; 255; 0; 0; 0; 0]] 0 0
    = Some [byte_val b2; byte_val b1; byte_val b0; 255].
Proof.
  apply (opaque_pixel_is_palette_entry ico_1bpp_2x2
           (mkDirectory 2 2 2 0 1 1 64 22) 40
           (mkDib 40 2 4 1 1 0 8 0 0 0 0)
           [[0; 255; 0; 255; 0; 255; 0; 255]; [0; 255; 0; 255; 0; 0; 0; 0]]
           ltac:(vm_compute; reflexivity) ltac:(vm_compute; reflexivity)
           ltac:(vm_compute; intros H; discriminate H)
           ltac:(vm_compute; reflexivity) 0 0).
  - simpl. lia.
  - simpl. lia.
  - vm_compute. reflexivity.
Defined.

(** ** Where [struct.error] comes from *)

Lemma read_directories_Err_len (data : bytes) (image_count : Z) (e : exn) :
  read_directories data image_count = Err e ->
  len data < 6 + 16 * image_count.
Proof.
  intros H. destruct (Z_lt_ge_dec (len data) (6 + 16 * image_count)); [assumption|].
  destruct (mapM_all_OK (read_directory data) (xrange image_count)) as [dirs Hd].
  { intros i Hi. apply xrange_In in Hi. apply read_directory_full; lia. }
  unfold read_directories in H. congruence.
Qed.

Lemma read_directories_short (data : bytes) (image_count : Z) :
  6 <= len data -> len data < 6 + 16 * image_count ->
  read_directories data image_count = Err StructError.
Proof.
  intros H6 Hlen. apply mapM_Err.
  - intros i _. apply read_directory_cases.
  - exists (image_count - 1). split; [apply xrange_In; lia|].
    apply read_directory_short; lia.
Qed.

Lemma read_dib_short (data : bytes) (offset : Z) :
  0 <= offset ->
  len data < offset + 4 \/
  (unpack_I (slice data offset (offset + 4)) = OK 40 /\ len data < offset + 40) ->
  read_dib data offset = Err StructError.
Proof.
  intros Hoff Hcut. pose proof (len_nonneg data). unfold read_dib.
  destruct Hcut as [Hlen|[Hu Hlen]].
  - unfold unpack_I. rewrite sized_Err; [reflexivity|].
    rewrite slice_len by lia. lia.
  - rewrite Hu. simpl. unfold unpack_dib. rewrite sized_Err; [reflexivity|].
    rewrite slice_len by lia. lia.
Qed.

Lemma read_dib_Err_len (data : bytes) (offset : Z) :
  0 <= offset ->
  read_dib data offset = Err StructError ->
  len data < offset + 4 \/
  (unpack_I (slice data offset (offset + 4)) = OK 40 /\ len data < offset + 40).
Proof.
  intros Hoff H. unfold read_dib in H.
  destruct (Z_lt_ge_dec (len data) (offset + 4)); [now left|]. right.
  unfold unpack_I, sized in *.
  destruct (Z.eqb_spec (len (slice data offset (offset + 4))) 4) as [E|E];
    [|rewrite slice_len in E by lia; lia].
  simpl in *. destruct (Z.eqb_spec (le_uint (slice data offset (offset + 4))) 40)
    as [E40|E40]; simpl in H; [|discriminate].
  rewrite E40 in *. split; [reflexivity|].
  destruct (Z_lt_ge_dec (len data) (offset + 40)); [assumption|].
  unfold unpack_dib, sized in H.
  destruct (Z.eqb_spec (len (slice data offset (offset + 40))) 40) as [E'|E'];
    [simpl in H; discriminate|].
  rewrite slice_len in E' by lia. lia.
Qed.

Lemma read_palette_short (data : bytes) (offset color_count : Z) :
  0 <= offset -> 0 < color_count ->
  len data < offset + 40 + 4 * color_count ->
  read_palette data offset 40 color_count = Err StructError.
Proof.
  intros Hoff Hcc Hlen. unfold read_palette. fold (xrange color_count).
  rewrite mapM_Err with (e := StructError); [reflexivity| |].
  - intros i _.
    destruct (unpack_BBBB (slice data (offset + 40 + 4 * i)
                                      (offset + 40 + 4 * i + 4))) as [c|e] eqn:E;
      [eauto|].
    apply unpack_BBBB_Err in E. subst. now left.
  - exists (color_count - 1). split; [apply xrange_In; lia|].
    apply unpack_BBBB_raises. rewrite slice_len by lia.
    pose proof (len_nonneg data). lia.
Qed.

(** The three places in which [dib_pixels] unpacks bytes, and the length
    each of them needs. *)
Lemma dib_pixels_struct_error_iff (data : bytes) (width height offset : Z)
    (dib : dib_header) :
  0 <= offset -> 1 <= width -> 1 <= height -> 0 <= dib_bpp dib ->
  dib_pixels data width height offset 40 dib = Err StructError <->
  (dib_bpp dib <= 8 /\ len data < offset + 40 + 4 * 2 ^ dib_bpp dib) \/
  (dib_bpp dib = 32 /\ len data < offset + 40 + 4 * (width * height)) \/
  (dib_bpp dib = 24 /\ len data < offset + 40 + 3 * (width * height)).
Proof.
  intros Hoff Hw Hh Hb0.
  assert (Hcc : 0 < 2 ^ dib_bpp dib) by (apply Z.pow_pos_nonneg; lia).
  unfold dib_pixels.
  destruct (Z.leb_spec (dib_bpp dib) 8) as [H8|H8].
  - split.
    + intros H. left. split; [exact H8|].
      destruct (Z_lt_ge_dec (len data) (offset + 40 + 4 * 2 ^ dib_bpp dib));
        [assumption|].
      destruct (read_palette_spec data offset (2 ^ dib_bpp dib))
        as (palette & Hp & _); try lia.
      rewrite (palette_pixels_grid _ _ _ _ _ _ _ Hp) in H.
      match type of H with
      | bind ?m _ = _ => destruct m as [quads|e] eqn:Hm; simpl in H; [discriminate|]
      end.
      inversion H; subst e.
      apply mapM_Err_inv in Hm as (y & _ & Hm).
      apply mapM_Err_inv in Hm as (x & _ & Hm).
      apply get_pixel_Err in Hm. discriminate.
    + intros [[_ Hlen]|[[E _]|[E _]]]; try lia.
      unfold palette_pixels. now rewrite read_palette_short.
  - destruct (Z.eqb_spec (dib_bpp dib) 32) as [E32|E32].
    + split.
      * intros H. right; left. split; [exact E32|].
        destruct (Z_lt_ge_dec (len data) (offset + 40 + 4 * (width * height)));
          [assumption|].
        destruct (grid_complete _ unpack_BBBB 4 data width height (offset + 40)
                    unpack_BBBB_sized) as [rows Hrows]; try lia.
        unfold rgb32_pixels in H. rewrite Hrows in H. discriminate.
      * intros [[H _]|[[_ Hlen]|[E _]]]; try lia.
        unfold rgb32_pixels.
        now rewrite (grid_truncated _ unpack_BBBB 4 data width height
                       (offset + 40) unpack_BBBB_sized unpack_BBBB_raises)
          by lia.
    + destruct (Z.eqb_spec (dib_bpp dib) 24) as [E24|E24].
      * split.
        -- intros H. right; right. split; [exact E24|].
           destruct (Z_lt_ge_dec (len data) (offset + 40 + 3 * (width * height)));
             [assumption|].
           destruct (grid_complete _ unpack_BBB 3 data width height (offset + 40)
                       unpack_BBB_sized) as [rows Hrows]; try lia.
           unfold rgb24_pixels in H. rewrite Hrows in H. discriminate.
        -- intros [[H _]|[[E _]|[_ Hlen]]]; try lia.
           unfold rgb24_pixels.
           now rewrite (grid_truncated _ unpack_BBB 3 data width height
                          (offset + 40) unpack_BBB_sized unpack_BBB_raises)
             by lia.
      * split; [discriminate|]. intros [[H _]|[[E _]|[E _]]]; lia.
Qed.

(** X14: [struct.error] leaves [ico2png] exactly when one of the parts it
    unpacks is cut short by the end of the buffer: the directory records
    after a valid header, the DIB size field or the 40-byte DIB header at
    the selected offset, the palette of a palette image, or the pixel
    data of a 32-bit or 24-bit image. *)
Theorem struct_error_iff_truncated (data : bytes) :
  ico2png data = Err StructError <->
  (exists image_count,
      read_header data = OK image_count /\
      len data < 6 + 16 * image_count) \/
  (exists d,
      select data = OK d /\
      (len data < d_offset d + 4 \/
       (unpack_I (slice data (d_offset d) (d_offset d + 4)) = OK 40 /\
        len data < d_offset d + 40))) \/
  (exists d dib_size dib,
      select data = OK d /\
      read_dib data (d_offset d) = OK (dib_size, dib) /\
      ((dib_bpp dib <= 8 /\ len data < d_offset d + 40 + 4 * 2 ^ dib_bpp dib) \/
       (dib_bpp dib = 32 /\
        len data < d_offset d + 40 + 4 * (d_width d * d_height d)) \/
       (dib_bpp dib = 24 /\
        len data < d_offset d + 40 + 3 * (d_width d * d_height d)))).
Proof.
  split.
  - intros H. apply ico2png_Err in H as [H|(d & Hs & H)].
    + left. apply select_Err in H as [[H _]|[(_ & n & Hh & Hd)|[H _]]];
        try discriminate.
      exists n. split; [exact Hh|]. eapply read_directories_Err_len; eauto.
    + right. destruct (select_fields _ _ Hs) as (Hw & Hh & Hoff).
      apply convert_entry_Err in H as [_ [H|(sz & dib & Hd & H)]].
      * left. exists d. split; [exact Hs|]. now apply read_dib_Err_len.
      * right. exists d, sz, dib. split; [exact Hs|]. split; [exact Hd|].
        destruct (read_dib_OK _ _ _ _ Hd) as (-> & _ & Hu).
        destruct (unpack_dib_fields _ _ Hu) as [Hb0 _].
        apply dib_pixels_struct_error_iff in H; first [exact H|lia].
  - intros [(n & Hh & Hlen)|[(d & Hs & Hcut)|(d & sz & dib & Hs & Hd & Hcut)]].
    + unfold ico2png, select. rewrite Hh. simpl bind.
      destruct (read_header_OK _ _ Hh) as [H6 _].
      now rewrite read_directories_short.
    + destruct (select_fields _ _ Hs) as (_ & _ & Hoff).
      unfold ico2png. rewrite Hs. simpl bind. unfold convert_entry.
      destruct (bytes_eqb _ png_signature) eqn:E.
      * apply png_test_true in E as (E & _ & E4); [|exact Hoff].
        destruct Hcut as [Hlen|[Hu _]]; [lia|].
        rewrite E4 in Hu. vm_compute in Hu. discriminate.
      * now rewrite read_dib_short.
    + destruct (select_fields _ _ Hs) as (Hw & Hh & Hoff).
      destruct (read_dib_OK _ _ _ _ Hd) as (_ & _ & Hu).
      destruct (unpack_dib_fields _ _ Hu) as [Hb0 _].
      rewrite (ico2png_dib _ _ _ _ Hs Hd).
      apply dib_pixels_struct_error_iff in Hcut; try lia.
      now rewrite Hcut.
Qed.

(** Four files cut short: in the pixel data, in the DIB header, in the
    palette, and (raising a different exception) in the mask. *)
Example cut_pixels_raise_struct_error :
  ico2png ico_24bpp_cut = Err StructError.
Proof. vm_compute. reflexivity. Qed.

Example cut_header_raises_struct_error :
  ico2png ico_24bpp_header_cut = Err StructError.
Proof. vm_compute. reflexivity. Qed.

Example cut_palette_raises_struct_error :
  ico2png ico_1bpp_2x2_palette_cut = Err StructError.
Proof. vm_compute. reflexivity. Qed.

Example cut_mask_raises_IndexError :
  ico2png ico_1bpp_2x2_mask_cut = Err IndexError.
Proof. vm_compute. reflexivity. Qed.
